(** * Scene-edit reconciliation: Screen2 and the AI service

    A shallow embedding of the scene-edit reconciliation logic of
    [src/app/components/Screen2.tsx] (dirty tracking, the two resync
    handlers, the baseline effect, scene editing) and of the two variants of
    [services/ai.service.ts] (the demo service and the HTTP service with
    its error normalisation).

    Conventions of the model:
    - scene ids are JavaScript numbers that hold integers: they are [Z];
      descriptions and tokens are strings; the [Map<number, string>] of the
      dirty computation is a [gmap Z string];
    - a handler is a program of commands over the component state, with one
      suspension point, the awaited remote call; a synchronous segment runs
      to completion, and what other code can observe is the state between
      two segments;
    - the state updates of a segment are applied together by the render
      that follows it (the batching of React 18); the memoised [dirtyInfo]
      is computed by a render when [scenes] holds another array than at the
      render before, against the content the ref has then, and it is kept
      when the ref alone is written;
    - a button with a true [disabled] attribute calls no handler;
    - [fetch] and [res.text()] settle as the platform decides: fulfilled,
      or rejected with a value of the platform. *)

From Stdlib Require Import ZArith DecimalString.
From stdpp Require Import gmap strings list.

Open Scope Z_scope.

#[local] Set Warnings "-clear-no-such-hyp".

(** ** Data model ([ai.service.ts])

    The record of an output scene is the demo variant's, with
    [duration_sec]; the HTTP variant calls the same field [duration]. *)

Module SceneInput.
Record t : Type := mk { id : Z; description : string }.
End SceneInput.

Module SceneOutput.
Record t : Type := mk {
  id : Z;
  description : string;
  imageUrl : option string;
  videoUrl : option string;
  title : option string;
  duration_sec : Z
}.

(** [{ ...scene, description: d }] *)
Definition with_description (scene : t) (d : string) : t :=
  {| id := id scene; description := d; imageUrl := imageUrl scene;
     videoUrl := videoUrl scene; title := title scene;
     duration_sec := duration_sec scene |}.
End SceneOutput.

Module ScenarioResult.
Record t : Type := mk { scenarioId : string; scenes : list SceneOutput.t }.
End ScenarioResult.

Abbreviation Scene := SceneOutput.t.
Abbreviation scene_id := SceneOutput.id.
Abbreviation scene_description := SceneOutput.description.

(** The ids of a collection, in order. *)
Definition ids (scenes : list Scene) : list Z := scene_id <$> scenes.

(** ** Dirty computation ([dirtyInfo], Screen2.tsx) *)

(** [base.forEach((s) => baseMap.set(s.id, s.description))] *)
Definition baseMap (base : list Scene) : gmap Z string :=
  foldl (λ m s, <[scene_id s := scene_description s]> m) ∅ base.

(** One turn of [for (const s of scenes)]: push the id when the map knows it
    with a different description. *)
Definition dirty_push (bm : gmap Z string) (dirtyIds : list Z) (s : Scene)
  : list Z :=
  match bm !! scene_id s with
  | Some baseDesc =>
      if decide (baseDesc ≠ scene_description s)
      then dirtyIds ++ [scene_id s] else dirtyIds
  | None => dirtyIds
  end.

Record DirtyInfo : Type := { dirtyIds : list Z; dirtyCount : nat }.

Definition dirtyInfo (scenes base : list Scene) : DirtyInfo :=
  let dirty := foldl (dirty_push (baseMap base)) [] scenes in
  {| dirtyIds := dirty; dirtyCount := length dirty |}.

(** The test of the loop body, as a boolean on one live scene. *)
Definition is_dirty (bm : gmap Z string) (s : Scene) : bool :=
  match bm !! scene_id s with
  | Some baseDesc => bool_decide (baseDesc ≠ scene_description s)
  | None => false
  end.

(** ** Component state (Screen2.tsx)

    [editingSceneId], [editedDescription] and [isRegenerating] are the
    component's own state; [baselineScenesRef] is the content of the ref
    ([baselineScenesRef.current]).  [scenes], [scenarioId] and
    [characterData.imageUrl] come from the application context, whose
    declaration is not among the sources: their types are those of their
    uses here, a scene being what [regenerateScenario] returns and
    [scenarioId] a string that may be missing ([None]).

    Two more fields hold what React keeps for [useMemo(..., [scenes])] and
    what JavaScript knows about the two arrays:
    - [memoBase] is the content the ref had when the memoised [dirtyInfo]
      was last computed, or [None] when [scenes] has been given another
      array since, so that the next render computes it again;
    - [aliased] says that [scenes] and [baselineScenesRef.current] are one
      and the same array. *)

Record State : Type := {
  scenes : list Scene;
  scenarioId : option string;
  characterImageUrl : string;
  editingSceneId : option Z;
  editedDescription : string;
  isRegenerating : bool;
  baselineScenesRef : list Scene;
  memoBase : option (list Scene);
  aliased : bool
}.

Definition set_scenes (v : list Scene) (st : State) : State :=
  {| scenes := v;
     scenarioId := scenarioId st;
     characterImageUrl := characterImageUrl st;
     editingSceneId := editingSceneId st;
     editedDescription := editedDescription st;
     isRegenerating := isRegenerating st;
     baselineScenesRef := baselineScenesRef st;
     memoBase := memoBase st;
     aliased := aliased st |}.

Definition set_scenarioId (v : option string) (st : State) : State :=
  {| scenes := scenes st;
     scenarioId := v;
     characterImageUrl := characterImageUrl st;
     editingSceneId := editingSceneId st;
     editedDescription := editedDescription st;
     isRegenerating := isRegenerating st;
     baselineScenesRef := baselineScenesRef st;
     memoBase := memoBase st;
     aliased := aliased st |}.

Definition set_characterImageUrl (v : string) (st : State) : State :=
  {| scenes := scenes st;
     scenarioId := scenarioId st;
     characterImageUrl := v;
     editingSceneId := editingSceneId st;
     editedDescription := editedDescription st;
     isRegenerating := isRegenerating st;
     baselineScenesRef := baselineScenesRef st;
     memoBase := memoBase st;
     aliased := aliased st |}.

Definition set_editingSceneId (v : option Z) (st : State) : State :=
  {| scenes := scenes st;
     scenarioId := scenarioId st;
     characterImageUrl := characterImageUrl st;
     editingSceneId := v;
     editedDescription := editedDescription st;
     isRegenerating := isRegenerating st;
     baselineScenesRef := baselineScenesRef st;
     memoBase := memoBase st;
     aliased := aliased st |}.

Definition set_editedDescription (v : string) (st : State) : State :=
  {| scenes := scenes st;
     scenarioId := scenarioId st;
     characterImageUrl := characterImageUrl st;
     editingSceneId := editingSceneId st;
     editedDescription := v;
     isRegenerating := isRegenerating st;
     baselineScenesRef := baselineScenesRef st;
     memoBase := memoBase st;
     aliased := aliased st |}.

Definition set_isRegenerating (v : bool) (st : State) : State :=
  {| scenes := scenes st;
     scenarioId := scenarioId st;
     characterImageUrl := characterImageUrl st;
     editingSceneId := editingSceneId st;
     editedDescription := editedDescription st;
     isRegenerating := v;
     baselineScenesRef := baselineScenesRef st;
     memoBase := memoBase st;
     aliased := aliased st |}.

Definition set_baselineScenesRef (v : list Scene) (st : State) : State :=
  {| scenes := scenes st;
     scenarioId := scenarioId st;
     characterImageUrl := characterImageUrl st;
     editingSceneId := editingSceneId st;
     editedDescription := editedDescription st;
     isRegenerating := isRegenerating st;
     baselineScenesRef := v;
     memoBase := memoBase st;
     aliased := aliased st |}.

Definition set_memoBase (v : option (list Scene)) (st : State) : State :=
  {| scenes := scenes st;
     scenarioId := scenarioId st;
     characterImageUrl := characterImageUrl st;
     editingSceneId := editingSceneId st;
     editedDescription := editedDescription st;
     isRegenerating := isRegenerating st;
     baselineScenesRef := baselineScenesRef st;
     memoBase := v;
     aliased := aliased st |}.

Definition set_aliased (v : bool) (st : State) : State :=
  {| scenes := scenes st;
     scenarioId := scenarioId st;
     characterImageUrl := characterImageUrl st;
     editingSceneId := editingSceneId st;
     editedDescription := editedDescription st;
     isRegenerating := isRegenerating st;
     baselineScenesRef := baselineScenesRef st;
     memoBase := memoBase st;
     aliased := v |}.

(** JavaScript truthiness of the values the handlers test. *)
Definition truthy_string (s : string) : bool := bool_decide (s ≠ "").
Definition truthy_number (n : Z) : bool := bool_decide (n ≠ 0).

(** The token [scenarioId] when it passes [if (!scenarioId) return]. *)
Definition truthy_scenarioId (st : State) : option string :=
  match scenarioId st with
  | Some sid => if truthy_string sid then Some sid else None
  | None => None
  end.

(** The baseline the memoised [dirtyInfo] is computed against: the one it
    was computed against when it is up to date, the content of the ref when
    it is about to be computed. *)
Definition memo_baseline (st : State) : list Scene :=
  match memoBase st with
  | Some base => base
  | None => baselineScenesRef st
  end.

(** The dirty information the component renders with: the value of
    [useMemo(..., [scenes])].  It is computed when [scenes] holds another
    array than at the last render, and not when the ref alone is written. *)
Definition dirtyInfo_of (st : State) : DirtyInfo :=
  dirtyInfo (scenes st) (memo_baseline st).

(** A render: [useMemo] runs again when [scenes] changed. *)
Definition render (st : State) : State :=
  match memoBase st with
  | Some _ => st
  | None => set_memoBase (Some (baselineScenesRef st)) st
  end.

(** The baseline effect:
    [if (baselineScenesRef.current.length === 0 && scenes.length > 0)
       baselineScenesRef.current = scenes].
    An effect runs once the render is committed: the memo has been computed
    when the ref is written, and the write leaves it. *)
Definition capture_fires (st : State) : bool :=
  bool_decide (length (baselineScenesRef st) = 0%nat)
  && bool_decide (0 < length (scenes st))%nat.

Definition baselineEffect (st : State) : State :=
  if capture_fires st
  then set_aliased true (set_baselineScenesRef (scenes st) (render st))
  else render st.

(** ** Handlers as programs

    A handler is a sequence of commands; [AwaitRegenerate] is the one
    suspension point ([await AIService.regenerateScenario(...)]), whose
    continuation receives the settled promise. *)

Inductive RemoteResult : Type :=
| Resolved (result : ScenarioResult.t)
| Rejected (error : string).

(** Where the array given to [setScenes] comes from: a new array
    ([scenes.map(...)], [result.scenes]), the array the ref holds, or the
    array [scenes] already is. *)
Inductive ArraySource : Type := NewArray | RefArray | SameArray.

Inductive Prog : Type :=
| Done
| WindowConfirm (msg : string) (k : bool → Prog)
| Alert (msg : string) (k : Prog)
| ConsoleError (label error : string) (k : Prog)
| SetScenes (source : ArraySource) (v : list Scene) (k : Prog)
| SetScenarioId (v : string) (k : Prog)
| SetEditingSceneId (v : option Z) (k : Prog)
| SetEditedDescription (v : string) (k : Prog)
| SetIsRegenerating (v : bool) (k : Prog)
| ReadBaseline (k : list Scene → Prog)
| WriteBaseline (v : list Scene) (k : Prog)
| AwaitRegenerate (sid : string) (inputs : list SceneInput.t)
    (image : string) (k : RemoteResult → Prog)
| OnNext (k : Prog).

(** [(s) => ({ id: s.id, description: s.description })] *)
Definition to_input (s : Scene) : SceneInput.t :=
  SceneInput.mk (scene_id s) (scene_description s).

Definition handleEditScene (sceneId : Z) (description : string) : Prog :=
  SetEditingSceneId (Some sceneId) (SetEditedDescription description Done).

(** [scene.id === editingSceneId ? { ...scene, description: editedDescription } : scene] *)
Definition save_scene (editing : Z) (edited : string) (scene : Scene) : Scene :=
  if decide (scene_id scene = editing)
  then SceneOutput.with_description scene edited
  else scene.

Definition handleSaveEdit (st : State) : Prog :=
  match editingSceneId st with
  | Some editing =>
      if truthy_number editing then
        SetScenes NewArray
          (save_scene editing (editedDescription st) <$> scenes st)
          (SetEditingSceneId None (SetEditedDescription "" Done))
      else Done
  | None => Done
  end.

Definition handleCancelEdit : Prog :=
  SetEditingSceneId None (SetEditedDescription "" Done).

Definition msg_confirm_regenerate_all : string :=
  "전체 재생성을 실행할까요?
- 현재 수정한 내용은 무시되고
- 모든 장면을 다시 생성/갱신합니다.".

Definition msg_regenerate_all_failed : string :=
  "전체 재생성에 실패했습니다. 잠시 후 다시 시도해주세요.".

Definition msg_no_scenarioId : string :=
  "scenarioId가 없습니다. 다시 시도해주세요.".

Definition msg_confirm_discard_edit : string :=
  "편집 중인 장면이 있습니다. 저장하지 않고 진행할까요?".

Definition msg_sync_failed : string :=
  "수정사항 반영(프롬프트 업데이트)에 실패했습니다. 다시 시도해주세요.".

(** The statements after a resolved [await], shared by both handlers:
    [setScenarioId(result.scenarioId); setScenes(result.scenes);
     baselineScenesRef.current = result.scenes]. *)
Definition adopt (result : ScenarioResult.t) (k : Prog) : Prog :=
  SetScenarioId (ScenarioResult.scenarioId result)
    (SetScenes NewArray (ScenarioResult.scenes result)
       (WriteBaseline (ScenarioResult.scenes result) k)).

Definition regenerateAll_settled (r : RemoteResult) : Prog :=
  match r with
  | Resolved result => adopt result (SetIsRegenerating false Done)
  | Rejected error =>
      ConsoleError "Regenerate all error:" error
        (Alert msg_regenerate_all_failed (SetIsRegenerating false Done))
  end.

(** [baselineScenesRef.current.length > 0 ? baselineScenesRef.current : scenes] *)
Definition regenerate_base (current live : list Scene) : list Scene :=
  if bool_decide (0 < length current)%nat then current else live.

(** Which array [base] is: the ref's when it is non-empty, [scenes]
    itself otherwise. *)
Definition regenerate_source (current : list Scene) : ArraySource :=
  if bool_decide (0 < length current)%nat then RefArray else SameArray.

Definition handleRegenerateAll (st : State) : Prog :=
  match truthy_scenarioId st with
  | None => Done
  | Some sid =>
      WindowConfirm msg_confirm_regenerate_all (λ ok,
        if ok then
          SetIsRegenerating true
            (ReadBaseline (λ current,
               let base := regenerate_base current (scenes st) in
               SetScenes (regenerate_source current) base
                 (AwaitRegenerate sid (to_input <$> base)
                    (characterImageUrl st) regenerateAll_settled)))
        else Done)
  end.

Definition generateVideo_settled (r : RemoteResult) : Prog :=
  match r with
  | Resolved result => adopt result (SetIsRegenerating false (OnNext Done))
  | Rejected error =>
      ConsoleError "Auto-regenerate before render error:" error
        (Alert msg_sync_failed (SetIsRegenerating false Done))
  end.

(** The part of [handleGenerateVideoClick] after the edit guard. *)
Definition generateVideo_sync (sid : string) (st : State) : Prog :=
  if bool_decide (0 < dirtyCount (dirtyInfo_of st))%nat then
    SetIsRegenerating true
      (AwaitRegenerate sid (to_input <$> scenes st)
         (characterImageUrl st) generateVideo_settled)
  else OnNext Done.

Definition handleGenerateVideoClick (st : State) : Prog :=
  match truthy_scenarioId st with
  | None => Alert msg_no_scenarioId Done
  | Some sid =>
      match editingSceneId st with
      | Some _ =>
          WindowConfirm msg_confirm_discard_edit (λ ok,
            if ok then
              SetEditingSceneId None
                (SetEditedDescription "" (generateVideo_sync sid st))
            else Done)
      | None => generateVideo_sync sid st
      end
  end.

Definition isRegenAllDisabled (st : State) : bool :=
  isRegenerating st || negb (bool_decide (is_Some (truthy_scenarioId st))).

(** ** Running a handler up to its suspension point *)

Inductive Event : Type :=
| EvConfirm (msg : string) (answer : bool)
| EvAlert (msg : string)
| EvConsoleError (label error : string)
| EvSetScenes (v : list Scene)
| EvSetScenarioId (v : string)
| EvSetEditingSceneId (v : option Z)
| EvSetEditedDescription (v : string)
| EvSetIsRegenerating (v : bool)
| EvWriteBaseline (v : list Scene)
| EvRegenerate (sid : string) (inputs : list SceneInput.t) (image : string)
| EvOnNext.

Inductive Outcome : Type :=
| Finished
| Suspended (k : RemoteResult → Prog).

(** [setScenes(v)]: a new array replaces the one [scenes] held, so the memo
    is due again; so does the ref's array unless [scenes] is that very
    array; the array [scenes] already is changes nothing. *)
Definition install_scenes (source : ArraySource) (v : list Scene) (st : State)
  : State :=
  match source with
  | NewArray => set_aliased false (set_memoBase None (set_scenes v st))
  | RefArray =>
      if aliased st then set_scenes v st
      else set_aliased true (set_memoBase None (set_scenes v st))
  | SameArray => set_scenes v st
  end.

(** [run_sync confirm p st] runs the synchronous segment of [p] from [st]:
    the state at the end of the segment, the events in order, and whether
    the handler returned or is waiting for the remote call it just issued
    (the last event is then [EvRegenerate]).  The assignment
    [baselineScenesRef.current = result.scenes] gives the ref the array that
    was just passed to [setScenes]. *)
Fixpoint run_sync (confirm : string → bool) (p : Prog) (st : State)
  : State * list Event * Outcome :=
  let emit (e : Event) (k : Prog) (st' : State) :=
    let '(st'', evs, out) := run_sync confirm k st' in (st'', e :: evs, out) in
  match p with
  | Done => (st, [], Finished)
  | WindowConfirm msg k =>
      emit (EvConfirm msg (confirm msg)) (k (confirm msg)) st
  | Alert msg k => emit (EvAlert msg) k st
  | ConsoleError label error k => emit (EvConsoleError label error) k st
  | SetScenes source v k => emit (EvSetScenes v) k (install_scenes source v st)
  | SetScenarioId v k => emit (EvSetScenarioId v) k (set_scenarioId (Some v) st)
  | SetEditingSceneId v k =>
      emit (EvSetEditingSceneId v) k (set_editingSceneId v st)
  | SetEditedDescription v k =>
      emit (EvSetEditedDescription v) k (set_editedDescription v st)
  | SetIsRegenerating v k =>
      emit (EvSetIsRegenerating v) k (set_isRegenerating v st)
  | ReadBaseline k => run_sync confirm (k (baselineScenesRef st)) st
  | WriteBaseline v k =>
      emit (EvWriteBaseline v) k
        (set_aliased true (set_baselineScenesRef v st))
  | AwaitRegenerate sid inputs image k =>
      (st, [EvRegenerate sid inputs image], Suspended k)
  | OnNext k => emit EvOnNext k st
  end.

(** ** The component as a machine

    Between two user actions the component is a [State] together with the
    handlers suspended on a remote call.  The two resync buttons carry
    [disabled={isRegenAllDisabled}] and [disabled={isRegenerating}]: a click
    on a disabled button calls no handler. *)

Record Component : Type := {
  state : State;
  inflight : list (RemoteResult → Prog)
}.

Inductive Action : Type :=
| ClickRegenerateAll (confirm : string → bool)
| ClickGenerateVideo (confirm : string → bool)
| ClickEdit (n : nat)
| TypeDescription (v : string)
| ClickSave
| ClickCancel
| RunBaselineEffect
| Settle (n : nat) (r : RemoteResult).

(** A synchronous segment of a handler, then the render React performs
    once the segment is over. *)
Definition launch (confirm : string → bool) (p : Prog) (c : Component)
  : Component * list Event :=
  let '(st', evs, out) := run_sync confirm p (state c) in
  ({| state := render st';
      inflight := match out with
                  | Finished => inflight c
                  | Suspended k => inflight c ++ [k]
                  end |}, evs).

Definition no_confirm : string → bool := λ _, false.

Definition dispatch (a : Action) (c : Component) : Component * list Event :=
  let st := state c in
  match a with
  | ClickRegenerateAll confirm =>
      if isRegenAllDisabled st then (c, [])
      else launch confirm (handleRegenerateAll st) c
  | ClickGenerateVideo confirm =>
      if isRegenerating st then (c, [])
      else launch confirm (handleGenerateVideoClick st) c
  | ClickEdit n =>
      match scenes st !! n with
      | Some scene =>
          if decide (editingSceneId st = Some (scene_id scene)) then (c, [])
          else launch no_confirm
                 (handleEditScene (scene_id scene) (scene_description scene)) c
      | None => (c, [])
      end
  | TypeDescription v =>
      launch no_confirm (SetEditedDescription v Done) c
  | ClickSave => launch no_confirm (handleSaveEdit st) c
  | ClickCancel => launch no_confirm handleCancelEdit c
  | RunBaselineEffect =>
      ({| state := baselineEffect st; inflight := inflight c |}, [])
  | Settle n r =>
      match inflight c !! n with
      | Some k =>
          launch no_confirm (k r)
            {| state := st; inflight := delete n (inflight c) |}
      | None => (c, [])
      end
  end.

Fixpoint exec (acts : list Action) (c : Component) : Component * list Event :=
  match acts with
  | [] => (c, [])
  | a :: acts' =>
      let '(c', evs) := dispatch a c in
      let '(c'', evs') := exec acts' c' in
      (c'', evs ++ evs')
  end.

(** A component with no call in flight. *)
Definition idle (st : State) : Component := {| state := st; inflight := [] |}.

(** The components that user actions, the effect and settling calls can
    produce from a freshly mounted component ([useState(false)] for
    [isRegenerating], nothing in flight), once it is rendered. *)
Inductive reachable : Component → Prop :=
| reachable_mount (st : State) :
    isRegenerating st = false → reachable (idle (render st))
| reachable_dispatch (a : Action) (c : Component) :
    reachable c → reachable (dispatch a c).1.

(** The number of times the baseline effect assigns the ref along a run. *)
Fixpoint captures (acts : list Action) (c : Component) : nat :=
  match acts with
  | [] => 0%nat
  | a :: acts' =>
      ((match a with
        | RunBaselineEffect => if capture_fires (state c) then 1 else 0
        | _ => 0
        end) + captures acts' (dispatch a c).1)%nat
  end.

(** The state after the three assignments of [adopt]. *)
Definition adopt_state (result : ScenarioResult.t) (st : State) : State :=
  set_aliased true
    (set_baselineScenesRef (ScenarioResult.scenes result)
       (install_scenes NewArray (ScenarioResult.scenes result)
          (set_scenarioId (Some (ScenarioResult.scenarioId result)) st))).

(** The state and the events of the edit guard when it lets the handler
    continue ([None]: the user declined). *)
Definition edit_guard (confirm : string → bool) (st : State)
  : option (State * list Event) :=
  match editingSceneId st with
  | None => Some (st, [])
  | Some _ =>
      if confirm msg_confirm_discard_edit
      then Some (set_editedDescription "" (set_editingSceneId None st),
                 [EvConfirm msg_confirm_discard_edit true;
                  EvSetEditingSceneId None;
                  EvSetEditedDescription ""])
      else None
  end.

(** The continuations a resync handler leaves in flight. *)
Definition resync_continuation (k : RemoteResult → Prog) : Prop :=
  k = regenerateAll_settled ∨ k = generateVideo_settled.

(** The flag and the calls in flight go together. *)
Definition flag_tracks_inflight (c : Component) : Prop :=
  (inflight c = [] ∧ isRegenerating (state c) = false)
  ∨ (∃ k, inflight c = [k] ∧ resync_continuation k
          ∧ isRegenerating (state c) = true).

(** The baseline effect has nothing left to capture. *)
Definition captured (st : State) : Prop :=
  baselineScenesRef st = [] → scenes st = [].

(** The two actions that start a resync. *)
Definition resync_click (a : Action) : Prop :=
  match a with
  | ClickRegenerateAll _ | ClickGenerateVideo _ => True
  | _ => False
  end.

(** The actions that edit a scene locally. *)
Definition local_edit (a : Action) : Prop :=
  match a with
  | ClickEdit _ | TypeDescription _ | ClickSave | ClickCancel => True
  | _ => False
  end.

(** Scenes of a collection that share an id share their description; this
    holds in particular when the ids are unique. *)
Definition same_id_same_description (l : list Scene) : Prop :=
  ∀ s t, s ∈ l → t ∈ l → scene_id s = scene_id t →
         scene_description s = scene_description t.

(** ** A number in a template literal

    [`${n}`] is [Number::toString(n)] of ECMAScript.  A number that holds an
    integer is a double [m * 2^e]; its string has the fewest significant
    digits that still read back as that double, and among those the closest
    ones; it is written in full, padded with zeros, up to 21 digits, and
    with an exponent beyond.  Up to [2^53] every integer is a double and
    its string is its decimal notation. *)

(** The double nearest to a positive integer, ties to the even mantissa:
    the mantissa and the exponent. *)
Definition nearest_double (n : Z) : Z * Z :=
  let b := Z.log2 n in
  if b <=? 52 then (n, 0)
  else
    let e := b - 52 in
    let m0 := n / 2 ^ e in
    let r := n mod 2 ^ e in
    let half := 2 ^ (e - 1) in
    let m := if (half <? r) || ((r =? half) && Z.odd m0) then m0 + 1 else m0 in
    if m =? 2 ^ 53 then (2 ^ 52, e + 1) else (m, e).

(** The integer [v] reads back as the double [m * 2^e]: it lies within half
    the distance to the next double on either side, the ends included when
    the mantissa is even.  The distance below a power of two is half the
    distance above. *)
Definition reads_back (m e v : Z) : bool :=
  let up := 2 ^ e in
  let down := if (m =? 2 ^ 52) && (0 <? e) then 2 ^ (e - 1) else 2 ^ e in
  let lo := 2 * (m * 2 ^ e) - down in
  let hi := 2 * (m * 2 ^ e) + up in
  if Z.even m then (lo <=? 2 * v) && (2 * v <=? hi)
  else (lo <? 2 * v) && (2 * v <? hi).

(** The multiple of [p], a power of ten, that reads back as [x = m * 2^e]
    and is closest to it, the even one of two equally close. *)
Definition closest_multiple (m e x p : Z) : option Z :=
  let below := x / p * p in
  let above := below + p in
  match reads_back m e below, reads_back m e above with
  | true, true =>
      if x - below <? above - x then Some below
      else if above - x <? x - below then Some above
      else if Z.even (below / p) then Some below else Some above
  | true, false => Some below
  | false, true => Some above
  | false, false => None
  end.

(** The value to print and the power of ten [p = 10^j] of the zeros it
    ends with: the most zeros, at most [j], that a value reading back as [x]
    can end with. *)
Fixpoint shortest (m e x : Z) (j : nat) (p : Z) : Z * Z :=
  match j with
  | O => (x, 1)
  | S j' =>
      match closest_multiple m e x p with
      | Some v => (v, p)
      | None => shortest m e x j' (p / 10)
      end
  end.

(** The decimal notation of an integer. *)
Definition decimal (v : Z) : string := NilZero.string_of_int (Z.to_int v).

(** [d.ddd e+N] from the significant digits and the exponent. *)
Definition exponent_form (digits : string) (exponent : Z) : string :=
  match digits with
  | EmptyString => EmptyString
  | String d EmptyString => String d ("e+" +:+ decimal exponent)
  | String d rest => String d ("." +:+ rest +:+ "e+" +:+ decimal exponent)
  end.

Definition positive_to_string (n : Z) : string :=
  let '(m, e) := nearest_double n in
  if 972 <=? e then "Infinity"
  else
    let x := m * 2 ^ e in
    let j := (Z.to_nat (Z.log2 x) + 1)%nat in
    let '(v, p) := shortest m e x j (10 ^ Z.of_nat j) in
    if v <? 10 ^ 21 then decimal v
    else exponent_form (decimal (v / p))
           (Z.of_nat (String.length (decimal v)) - 1).

(** [`${n}`] for the number that holds the integer [n] (the nearest double,
    for an integer that is not a double itself). *)
Definition number_to_string (n : Z) : string :=
  match n with
  | Z0 => "0"
  | Zpos _ => positive_to_string n
  | Zneg p => "-" +:+ positive_to_string (Zpos p)
  end.

Arguments number_to_string : simpl never.

(** ** The AI service (ai.service.ts) *)

(** *** Demo variant *)

Module Demo.

(** [{ ...scene, imageUrl: `/demo/images/scene-${scene.id}.png`,
       title: `Scene ${scene.id}`, duration_sec: 4 }] *)
Definition regenerate_scene (scene : SceneInput.t) : SceneOutput.t :=
  {| SceneOutput.id := SceneInput.id scene;
     SceneOutput.description := SceneInput.description scene;
     SceneOutput.imageUrl :=
       Some ("/demo/images/scene-"
             +:+ number_to_string (SceneInput.id scene) +:+ ".png");
     SceneOutput.videoUrl := None;
     SceneOutput.title :=
       Some ("Scene " +:+ number_to_string (SceneInput.id scene));
     SceneOutput.duration_sec := 4 |}.

(** The promise of the demo [regenerateScenario] always resolves. *)
Definition regenerateScenario (scenarioId : string)
    (scenes : list SceneInput.t) (characterImageUrl : string)
  : ScenarioResult.t :=
  {| ScenarioResult.scenarioId := scenarioId;
     ScenarioResult.scenes := regenerate_scene <$> scenes |}.

End Demo.

(** *** HTTP variant: [requestJson]

    The parsed body is an untyped JSON value.  JavaScript numbers and
    [JSON.parse] belong to the platform: the type of numbers with its
    truthiness test, the parser and the string conversion of a template
    literal are parameters, and so is the type of the values a promise of
    the platform is rejected with.  [fetch] and [res.text()] are awaited
    outside any [try]: their rejections leave [requestJson] as they are. *)

Module Http.

#[local] Set Warnings "-register-all".

Inductive JSON (number : Type) : Type :=
| JNull
| JBool (b : bool)
| JNumber (n : number)
| JString (s : string)
| JArray (items : list (JSON number))
| JObject (fields : list (string * JSON number)).

Arguments JNull {number}.
Arguments JBool {number} b.
Arguments JNumber {number} n.
Arguments JString {number} s.
Arguments JArray {number} items.
Arguments JObject {number} fields.

(** How an awaited promise of the platform settles. *)
Inductive Settled (A error : Type) : Type :=
| Fulfilled (value : A)
| Failed (reason : error).

Arguments Fulfilled {A error} value.
Arguments Failed {A error} reason.

(** What [requestJson] reads of a [Response]: [res.ok], [res.status] and
    the promise [res.text()]. *)
Record Response (error : Type) : Type := {
  ok : bool;
  status : Z;
  text : Settled string error
}.

Arguments ok {error} r.
Arguments status {error} r.
Arguments text {error} r.

(** How a call of [requestJson] ends: it returns the payload, it throws
    [new Error(message)], or a rejection it awaited passes through. *)
Inductive Completion (number error : Type) : Type :=
| Returned (payload : JSON number)
| Thrown (message : string)
| Escaped (reason : error).

Arguments Returned {number error} payload.
Arguments Thrown {number error} message.
Arguments Escaped {number error} reason.

Section RequestJson.
Context {number error : Type}.
Variable number_truthy : number → bool.
Variable JSON_parse : string → option (JSON number).
Variable ToString : JSON number → string.

(** A JavaScript value here is a JSON value or [undefined] ([None]); the
    fields of an object are its own properties, one entry per key. *)
Definition lookup_field (key : string) (fields : list (string * JSON number))
  : option (JSON number) :=
  (λ found, found.2.2) <$> list_find (λ kv, kv.1 = key) fields.

(** [v?.key], for the keys [error], [detail] and [message], which only an
    object can own. *)
Definition optional_get (v : option (JSON number)) (key : string)
  : option (JSON number) :=
  match v with
  | Some (JObject fields) => lookup_field key fields
  | _ => None
  end.

Definition truthy (v : option (JSON number)) : bool :=
  match v with
  | None => false
  | Some JNull => false
  | Some (JBool b) => b
  | Some (JNumber n) => number_truthy n
  | Some (JString s) => truthy_string s
  | Some (JArray _) => true
  | Some (JObject _) => true
  end.

(** [a || b] *)
Definition js_or (a b : option (JSON number)) : option (JSON number) :=
  if truthy a then a else b.

(** [`${v}`] *)
Definition template (v : option (JSON number)) : string :=
  match v with
  | None => "undefined"
  | Some j => ToString j
  end.

(** [payload = text ? JSON.parse(text) : null], and [null] when the parser
    throws. *)
Definition parse_payload (text : string) : JSON number :=
  if truthy_string text then
    match JSON_parse text with
    | Some payload => payload
    | None => JNull
    end
  else JNull.

(** The [message] of the [!res.ok] branch, [text] being the body read. *)
Definition error_message (status : Z) (text : string) : option (JSON number) :=
  let payload := Some (parse_payload text) in
  js_or
    (js_or
       (js_or
          (js_or (optional_get (optional_get payload "error") "message")
                 (optional_get payload "detail"))
          (optional_get payload "message"))
       (Some (JString text)))
    (Some (JString ("HTTP " +:+ number_to_string status))).

(** [requestJson], from the way [fetch(...)] settles:
    [const res = await fetch(...); const text = await res.text();]
    then the parse inside [try], the test of [res.ok] and the return. *)
Definition requestJson (fetched : Settled (Response error) error)
  : Completion number error :=
  match fetched with
  | Failed reason => Escaped reason
  | Fulfilled res =>
      match text res with
      | Failed reason => Escaped reason
      | Fulfilled text =>
          let payload := parse_payload text in
          if ok res then Returned payload
          else Thrown ("API Error: " +:+ template (error_message (status res) text))
      end
  end.

End RequestJson.
End Http.

(** The events of the setters a local edit may call. *)
Definition editor_event (e : Event) : Prop :=
  match e with
  | EvSetScenes _ | EvSetEditingSceneId _ | EvSetEditedDescription _ => True
  | _ => False
  end.

(** ** What the component renders from the dirty information *)

(** [const isDirty = dirtyInfo.dirtyIds.includes(scene.id)]: the EDITED
    badge of a scene card. *)
Definition isDirty (st : State) (scene : Scene) : bool :=
  bool_decide (scene_id scene ∈ dirtyIds (dirtyInfo_of st)).

(** The text of the status badge. *)
Definition status_badge (st : State) : string :=
  let dirtyCount := dirtyCount (dirtyInfo_of st) in
  if isRegenerating st then
    if bool_decide (0 < dirtyCount)%nat
    then "UPDATING PROMPTS..." else "WORKING..."
  else
    if bool_decide (0 < dirtyCount)%nat
    then "CHANGES: " +:+ number_to_string (Z.of_nat dirtyCount)
    else "READY TO RENDER".

(** ** The rest of the demo service *)

Module DemoService.

(** [generateScenario]; [now] is the value of [Date.now()].  The first
    description ends with the bytes the source file holds. *)
Definition generateScenario (now : Z) (name who where_ what how : string)
    (characterImageUrl : string) : ScenarioResult.t :=
  {| ScenarioResult.scenarioId := "scn_demo_" +:+ number_to_string now;
     ScenarioResult.scenes :=
       [ SceneOutput.mk 1 (who +:+ " " +:+ where_ +:+ "¿¡ °©´Ï´Ù")
           (Some "/demo/images/scene-1.png") None (Some "Scene 1") 4;
         SceneOutput.mk 2 (who +:+ " " +:+ what)
           (Some "/demo/images/scene-2.png") None (Some "Scene 2") 4;
         SceneOutput.mk 3 (who +:+ " " +:+ how)
           (Some "/demo/images/scene-3.png") None (Some "Scene 3") 4 ] |}.

(** [`/demo/videos/scene-${sceneId}.mp4`] *)
Definition generateSceneVideo (sceneId : Z) (sceneDescription : string)
    (characterImageUrl : string) (scenarioId : option string) : string :=
  "/demo/videos/scene-" +:+ number_to_string sceneId +:+ ".mp4".

(** [videoUrls[0] || '/demo/videos/scene-1.mp4'] *)
Definition mergeVideos (videoUrls : list string) : string :=
  match videoUrls !! 0%nat with
  | Some first => if truthy_string first then first
                  else "/demo/videos/scene-1.mp4"
  | None => "/demo/videos/scene-1.mp4"
  end.

End DemoService.

(** ** The rest of the HTTP service: base URL and response mapping *)

Module Api.

(** [s.replace(/\/$/, "")]: a slash that ends the string is removed. *)
Fixpoint strip_trailing_slash (s : string) : string :=
  match s with
  | EmptyString => EmptyString
  | String c rest =>
      match rest with
      | EmptyString => if String.eqb s "/" then EmptyString else s
      | String _ _ => String c (strip_trailing_slash rest)
      end
  end.

(** [s.endsWith(suffix)] *)
Fixpoint endsWith (s suffix : string) : bool :=
  String.eqb s suffix
  || match s with
     | EmptyString => false
     | String _ rest => endsWith rest suffix
     end.

(** [a || b] on an environment variable that may be missing. *)
Definition env_or (a : option string) (b : string) : string :=
  match a with
  | Some v => if truthy_string v then v else b
  | None => b
  end.

(** [(VITE_API_BASE_URL || VITE_AWS_API_ENDPOINT || "http://localhost:8000")
      .replace(/\/$/, "")] *)
Definition API_BASE_URL (VITE_API_BASE_URL VITE_AWS_API_ENDPOINT : option string)
  : string :=
  strip_trailing_slash
    (env_or VITE_API_BASE_URL
       (env_or VITE_AWS_API_ENDPOINT "http://localhost:8000")).

(** [API_BASE_URL.endsWith("/api/v1") ? API_BASE_URL : `${API_BASE_URL}/api/v1`] *)
Definition API_V1_BASE_URL (base : string) : string :=
  if endsWith base "/api/v1" then base else base +:+ "/api/v1".

(** A scene as the API sends it; [title] and [image_url] may be null or
    missing. *)
Record ApiScene : Type := {
  id : Z;
  title : option string;
  description : string;
  duration : Z;
  image_url : option string
}.

Record ApiScenarioResponse : Type := {
  scenario_id : string;
  scenes : list ApiScene
}.

(** The output scene of the HTTP variant. *)
Record SceneOutput : Type := {
  out_id : Z;
  out_description : string;
  out_imageUrl : option string;
  out_videoUrl : option string;
  out_title : option string;
  out_duration : Z
}.

Definition mapApiScene (scene : ApiScene) : SceneOutput :=
  {| out_id := id scene;
     out_title :=
       Some (match title scene with
             | Some t => t
             | None => "Scene " +:+ number_to_string (id scene)
             end);
     out_description := description scene;
     out_duration := duration scene;
     out_imageUrl := image_url scene;
     out_videoUrl := None |}.

(** The value both [generateScenario] and [regenerateScenario] return from
    the typed response: [{ scenarioId: result.scenario_id,
    scenes: result.scenes.map(mapApiScene) }]. *)
Definition scenario_result (result : ApiScenarioResponse)
  : string * list SceneOutput :=
  (scenario_id result, mapApiScene <$> scenes result).

End Api.

(** ** Sample data for the examples *)

Definition scene (i : Z) (d : string) : Scene :=
  SceneOutput.mk i d None None None 4.

(** The scenario of the specification: baseline [A], [B]; scene 1 edited. *)
Definition sample_baseline : list Scene := [scene 1 "A"; scene 2 "B"].
Definition sample_live : list Scene := [scene 1 "A2"; scene 2 "B"].

Definition sample_state : State :=
  {| scenes := sample_live; scenarioId := Some "s1";
     characterImageUrl := "/img/c.png"; editingSceneId := None;
     editedDescription := ""; isRegenerating := false;
     baselineScenesRef := sample_baseline;
     memoBase := Some sample_baseline; aliased := false |}.

(** The component after the advance button was clicked on the sample state:
    one incremental sync is in flight. *)
Definition sample_syncing : Component :=
  (dispatch (ClickGenerateVideo (λ _, true)) (idle sample_state)).1.

(** The answer of the specification's scenario, and an answer that repeats
    an id with two descriptions. *)
Definition sample_result : ScenarioResult.t :=
  ScenarioResult.mk "s2" [scene 1 "A2"; scene 2 "B"].
Definition repeated_id_result : ScenarioResult.t :=
  ScenarioResult.mk "s2" [scene 1 "A"; scene 1 "B"].

(** A clean state with scene 1 open in the editor. *)
Definition editing_clean_state : State :=
  {| scenes := sample_baseline; scenarioId := Some "s1";
     characterImageUrl := "/img/c.png"; editingSceneId := Some 1;
     editedDescription := "A"; isRegenerating := false;
     baselineScenesRef := sample_baseline;
     memoBase := Some sample_baseline; aliased := true |}.

(** A scene with id 0 open in the editor, its new description typed. *)
Definition editing_zero_state : State :=
  {| scenes := [scene 0 "A"; scene 1 "B"]; scenarioId := Some "s1";
     characterImageUrl := "/img/c.png"; editingSceneId := Some 0;
     editedDescription := "A2"; isRegenerating := false;
     baselineScenesRef := [scene 0 "A"; scene 1 "B"];
     memoBase := Some [scene 0 "A"; scene 1 "B"]; aliased := true |}.

(** A freshly mounted component that received the sample scenes. *)
Definition fresh_state : State :=
  {| scenes := sample_baseline; scenarioId := Some "s1";
     characterImageUrl := "/img/c.png"; editingSceneId := None;
     editedDescription := ""; isRegenerating := false;
     baselineScenesRef := []; memoBase := Some []; aliased := false |}.

Definition accept : string → bool := λ _, true.
Definition decline : string → bool := λ _, false.

(** A platform for the examples of [requestJson]: integer numbers, a body
    that parses to an object with a [detail] field, and the string
    conversion of a template literal on strings and objects. *)
Definition sample_parse (text : string) : option (Http.JSON Z) :=
  Some (Http.JObject [("detail", Http.JString "Scenario not found")]).

Definition sample_ToString (j : Http.JSON Z) : string :=
  match j with
  | Http.JNull => "null"
  | Http.JBool b => if b then "true" else "false"
  | Http.JNumber n => number_to_string n
  | Http.JString s => s
  | Http.JArray _ => ""
  | Http.JObject _ => "[object Object]"
  end.



(** ** Facts about the baseline map *)

Section BaseMap.
Implicit Types (base : list Scene) (b : Scene) (i : Z) (d : string).

Lemma baseMap_snoc base b :
  baseMap (base ++ [b]) = <[scene_id b := scene_description b]> (baseMap base).
Proof. unfold baseMap. by rewrite foldl_snoc. Qed.

Lemma baseMap_lookup_None base i :
  baseMap base !! i = None ↔ ∀ b, b ∈ base → scene_id b ≠ i.
Proof.
  induction base as [|b base IH] using rev_ind.
  - split; [intros _ b Hb; by apply elem_of_nil in Hb | done].
  - rewrite baseMap_snoc, lookup_insert_None, IH. split.
    + intros [Hbase Hb] b' [Hin | ->%list_elem_of_singleton]%elem_of_app; auto.
    + intros H. split.
      * intros b' Hb'. apply H, elem_of_app. by left.
      * apply H, elem_of_app. right. by apply list_elem_of_singleton.
Qed.

Lemma baseMap_lookup_Some_elem base i d :
  baseMap base !! i = Some d →
  ∃ b, b ∈ base ∧ scene_id b = i ∧ scene_description b = d.
Proof.
  induction base as [|b base IH] using rev_ind; [done|].
  rewrite baseMap_snoc, lookup_insert_Some.
  intros [[<- <-] | [_ Hold]].
  - exists b. split; [|done]. apply elem_of_app. right.
    by apply list_elem_of_singleton.
  - destruct (IH Hold) as (b' & Hin & Hid & Hd). exists b'.
    split; [|done]. apply elem_of_app. by left.
Qed.

Lemma baseMap_lookup_unique base b :
  NoDup (ids base) → b ∈ base →
  baseMap base !! scene_id b = Some (scene_description b).
Proof.
  unfold ids. induction base as [|x base IH] using rev_ind.
  - intros _ Hb. by apply elem_of_nil in Hb.
  - rewrite fmap_app, NoDup_app. simpl. intros (Hnd & Hdisj & _).
    rewrite baseMap_snoc.
    intros [Hin | ->%list_elem_of_singleton]%elem_of_app.
    + rewrite lookup_insert_ne; [by apply IH|].
      intros Heq. apply (Hdisj (scene_id b)).
      * apply list_elem_of_fmap. by exists b.
      * rewrite <- Heq. by apply list_elem_of_singleton.
    + by rewrite lookup_insert_eq.
Qed.
End BaseMap.

(** ** The dirty loop as a filter *)

Section DirtyLoop.
Implicit Types (scenes base : list Scene) (s : Scene) (i : Z).

Lemma is_dirty_Some (bm : gmap Z string) s :
  is_dirty bm s ↔ ∃ d, bm !! scene_id s = Some d ∧ d ≠ scene_description s.
Proof.
  unfold is_dirty. destruct (bm !! scene_id s) as [d|].
  - rewrite bool_decide_spec. split; [eauto|]. by intros (d' & [= <-] & ?).
  - split; [done|]. by intros (d' & [=] & _).
Qed.

Lemma dirty_loop_filter (bm : gmap Z string) scenes (acc : list Z) :
  foldl (dirty_push bm) acc scenes
  = acc ++ (scene_id <$> filter (λ s, is_dirty bm s) scenes).
Proof.
  revert acc. induction scenes as [|s scenes IH]; intros acc; simpl.
  - by rewrite app_nil_r.
  - rewrite IH, filter_cons. unfold dirty_push.
    destruct (decide (is_dirty bm s)) as [Hd|Hd].
    + pose proof Hd as (d & Hl & Hne)%is_dirty_Some. rewrite Hl.
      rewrite decide_True by done. simpl. by rewrite <- app_assoc.
    + destruct (bm !! scene_id s) as [d|] eqn:Hl; [|done].
      rewrite decide_False; [done|]. intros Hne.
      apply Hd, is_dirty_Some. eauto.
Qed.

Lemma dirtyIds_filter scenes base :
  dirtyIds (dirtyInfo scenes base)
  = scene_id <$> filter (λ s, is_dirty (baseMap base) s) scenes.
Proof. unfold dirtyInfo. simpl. by rewrite dirty_loop_filter. Qed.

Lemma dirtyCount_length scenes base :
  dirtyCount (dirtyInfo scenes base) = length (dirtyIds (dirtyInfo scenes base)).
Proof. done. Qed.

Lemma elem_of_dirtyIds scenes base i :
  i ∈ dirtyIds (dirtyInfo scenes base)
  ↔ ∃ s, s ∈ scenes ∧ scene_id s = i ∧ is_dirty (baseMap base) s.
Proof.
  rewrite dirtyIds_filter, list_elem_of_fmap. split.
  - intros (s & -> & [Hd Hin]%list_elem_of_filter). eauto.
  - intros (s & Hin & <- & Hd). exists s. split; [done|].
    by apply list_elem_of_filter.
Qed.

Lemma dirtyIds_NoDup scenes base :
  NoDup (ids scenes) → NoDup (dirtyIds (dirtyInfo scenes base)).
Proof.
  rewrite dirtyIds_filter. unfold ids.
  induction scenes as [|s scenes IH]; simpl; [constructor|].
  rewrite NoDup_cons. intros [Hs Hnd]. rewrite filter_cons.
  case_decide; simpl; [|by apply IH].
  apply NoDup_cons. split; [|by apply IH].
  intros (s' & Hid & [_ Hin]%list_elem_of_filter)%list_elem_of_fmap.
  apply Hs, list_elem_of_fmap. eauto.
Qed.
End DirtyLoop.

(** ** Dirty computation against the baseline *)

Section DirtySpec.
Implicit Types (live base : list Scene) (s b : Scene) (i : Z).

Lemma not_dirty_absent live base i :
  i ∉ ids base → i ∉ dirtyIds (dirtyInfo live base).
Proof.
  intros Habs (s & _ & <- & (d & Hl & _)%is_dirty_Some)%elem_of_dirtyIds.
  apply baseMap_lookup_Some_elem in Hl as (b & Hb & Hid & _).
  apply Habs. unfold ids. apply list_elem_of_fmap. eauto.
Qed.

(** Whatever the ids, a reported id occurs in both collections with
    different descriptions. *)
Lemma dirty_occurs_in_both live base i :
  i ∈ dirtyIds (dirtyInfo live base) →
  ∃ s b, s ∈ live ∧ b ∈ base ∧ scene_id s = i ∧ scene_id b = i
         ∧ scene_description b ≠ scene_description s.
Proof.
  intros (s & Hs & Hid & (d & Hl & Hne)%is_dirty_Some)%elem_of_dirtyIds.
  apply baseMap_lookup_Some_elem in Hl as (b & Hb & Hidb & <-).
  exists s, b. repeat split; congruence.
Qed.

(** C1: for every live collection and baseline of the data model (scene ids
    unique within a collection), an id is reported dirty if and only if it
    occurs in the live collection and in the baseline with descriptions that
    differ, and [dirtyCount] is the number of dirty ids; an id of the live
    collection that the baseline does not hold is never reported, whatever
    the collections.  The uniqueness of the baseline ids is what the
    equivalence needs, that of the live ids what the count needs. *)
Theorem dirtyInfo_unique_ids live base :
  (∀ i, i ∈ ids live → i ∉ ids base → i ∉ dirtyIds (dirtyInfo live base))
  ∧ (NoDup (ids base) →
     ∀ i, i ∈ dirtyIds (dirtyInfo live base) ↔
          ∃ s b, s ∈ live ∧ b ∈ base ∧ scene_id s = i ∧ scene_id b = i
                 ∧ scene_description b ≠ scene_description s)
  ∧ (NoDup (ids live) →
     dirtyCount (dirtyInfo live base)
     = size (list_to_set (C:=gset Z) (dirtyIds (dirtyInfo live base)))).
Proof.
  split; [|split].
  - intros i _. apply not_dirty_absent.
  - intros Hbase i. split; [apply dirty_occurs_in_both|].
    intros (s & b & Hs & Hb & Hids & Hidb & Hne).
    apply elem_of_dirtyIds. exists s. repeat split; [done..|].
    apply is_dirty_Some. exists (scene_description b). split; [|done].
    rewrite Hids, <- Hidb. by apply baseMap_lookup_unique.
  - intros Hlive. rewrite dirtyCount_length, size_list_to_set; [done|].
    by apply dirtyIds_NoDup.
Qed.
End DirtySpec.

(** C1, witness: the specification's scenario has unique ids on both sides;
    id 1 is dirty, id 2 is not, and the count is the size of the dirty set. *)
Lemma dirtyInfo_unique_ids_witness :
  NoDup (ids sample_live) ∧ NoDup (ids sample_baseline)
  ∧ (1 ∈ dirtyIds (dirtyInfo sample_live sample_baseline) ↔
     ∃ s b, s ∈ sample_live ∧ b ∈ sample_baseline
            ∧ scene_id s = 1 ∧ scene_id b = 1
            ∧ scene_description b ≠ scene_description s)
  ∧ dirtyCount (dirtyInfo sample_live sample_baseline)
    = size (list_to_set (C:=gset Z)
              (dirtyIds (dirtyInfo sample_live sample_baseline))).
Proof.
  assert (Hl : NoDup (ids sample_live)) by compute_done.
  assert (Hb : NoDup (ids sample_baseline)) by compute_done.
  split; [exact Hl|]. split; [exact Hb|].
  destruct (dirtyInfo_unique_ids sample_live sample_baseline)
    as (_ & Hiff & Hcount).
  split; [exact (Hiff Hb 1) | exact (Hcount Hl)].
Defined.

Example dirtyInfo_sample :
  dirtyInfo sample_live sample_baseline = {| dirtyIds := [1]; dirtyCount := 1 |}.
Proof. reflexivity. Qed.

(** Outside the data model the array and the map show: two live scenes of
    id 1 are pushed twice, and of two baseline scenes of id 1 the map keeps
    the description of the last. *)
Example dirtyInfo_repeated_ids :
  dirtyInfo [scene 1 "X"; scene 1 "Y"] [scene 1 "A"]
  = {| dirtyIds := [1; 1]; dirtyCount := 2 |}
  ∧ dirtyInfo [scene 1 "A"] [scene 1 "B"; scene 1 "A"]
    = {| dirtyIds := []; dirtyCount := 0 |}.
Proof. split; reflexivity. Qed.

(** ** Setting the live collection and rendering: what stays *)

Section Rendering.
Implicit Types (st : State) (v : list Scene) (source : ArraySource).

Lemma install_scenes_frame source v st :
  scenes (install_scenes source v st) = v
  ∧ baselineScenesRef (install_scenes source v st) = baselineScenesRef st
  ∧ scenarioId (install_scenes source v st) = scenarioId st
  ∧ characterImageUrl (install_scenes source v st) = characterImageUrl st
  ∧ editingSceneId (install_scenes source v st) = editingSceneId st
  ∧ editedDescription (install_scenes source v st) = editedDescription st
  ∧ isRegenerating (install_scenes source v st) = isRegenerating st.
Proof. unfold install_scenes. destruct source, (aliased st); done. Qed.

Lemma render_frame st :
  scenes (render st) = scenes st
  ∧ baselineScenesRef (render st) = baselineScenesRef st
  ∧ scenarioId (render st) = scenarioId st
  ∧ characterImageUrl (render st) = characterImageUrl st
  ∧ editingSceneId (render st) = editingSceneId st
  ∧ editedDescription (render st) = editedDescription st
  ∧ isRegenerating (render st) = isRegenerating st
  ∧ aliased (render st) = aliased st.
Proof. unfold render. by destruct (memoBase st). Qed.

Lemma isRegenerating_install_scenes source v st :
  isRegenerating (install_scenes source v st) = isRegenerating st.
Proof. apply install_scenes_frame. Qed.

Lemma isRegenerating_render st : isRegenerating (render st) = isRegenerating st.
Proof. apply render_frame. Qed.

Lemma baselineScenesRef_install_scenes source v st :
  baselineScenesRef (install_scenes source v st) = baselineScenesRef st.
Proof. apply install_scenes_frame. Qed.

Lemma baselineScenesRef_render st :
  baselineScenesRef (render st) = baselineScenesRef st.
Proof. apply render_frame. Qed.

Lemma scenes_install_scenes source v st :
  scenes (install_scenes source v st) = v.
Proof. apply install_scenes_frame. Qed.

Lemma scenes_render st : scenes (render st) = scenes st.
Proof. apply render_frame. Qed.

Lemma scenarioId_render st : scenarioId (render st) = scenarioId st.
Proof. apply render_frame. Qed.

Lemma scenarioId_install_scenes source v st :
  scenarioId (install_scenes source v st) = scenarioId st.
Proof. apply install_scenes_frame. Qed.

Lemma editingSceneId_render st : editingSceneId (render st) = editingSceneId st.
Proof. apply render_frame. Qed.

Lemma editedDescription_render st :
  editedDescription (render st) = editedDescription st.
Proof. apply render_frame. Qed.

Lemma characterImageUrl_render st :
  characterImageUrl (render st) = characterImageUrl st.
Proof. apply render_frame. Qed.

Lemma render_memo_baseline st : memo_baseline (render st) = memo_baseline st.
Proof.
  unfold render, memo_baseline.
  destruct (memoBase st) eqn:Hm; simpl; by rewrite ?Hm.
Qed.

Lemma render_dirtyInfo_of st : dirtyInfo_of (render st) = dirtyInfo_of st.
Proof. unfold dirtyInfo_of. by rewrite render_memo_baseline, (proj1 (render_frame st)). Qed.

Lemma render_rendered st : is_Some (memoBase st) → render st = st.
Proof. unfold render. by intros [base ->]. Qed.

Lemma render_is_rendered st : is_Some (memoBase (render st)).
Proof. unfold render. destruct (memoBase st) eqn:Hm; [by rewrite Hm|done]. Qed.

(** After a new array was installed, the next render computes the memo
    against the ref as it is then. *)
Lemma render_after_new_array v st :
  memo_baseline (render (install_scenes NewArray v st)) = baselineScenesRef st.
Proof. done. Qed.
End Rendering.

Create Rewrite HintDb frame.
#[global] Hint Rewrite isRegenerating_render isRegenerating_install_scenes
  baselineScenesRef_render baselineScenesRef_install_scenes
  scenes_render scenes_install_scenes scenarioId_render
  scenarioId_install_scenes editingSceneId_render editedDescription_render
  characterImageUrl_render render_dirtyInfo_of : frame.

(** Reduce the machine, keeping renders and installed arrays folded, and
    read the fields through them. *)
Ltac frame :=
  cbn -[render install_scenes];
  repeat (progress (autorewrite with frame); cbn -[render install_scenes]).

(** ** Running the two resync handlers *)

Section Handlers.
Implicit Types (st : State) (confirm : string → bool) (r : RemoteResult).

Lemma run_regenerateAll_resolved confirm result st :
  run_sync confirm (regenerateAll_settled (Resolved result)) st
  = (set_isRegenerating false (adopt_state result st),
     [EvSetScenarioId (ScenarioResult.scenarioId result);
      EvSetScenes (ScenarioResult.scenes result);
      EvWriteBaseline (ScenarioResult.scenes result);
      EvSetIsRegenerating false],
     Finished).
Proof. reflexivity. Qed.

Lemma run_regenerateAll_rejected confirm error st :
  run_sync confirm (regenerateAll_settled (Rejected error)) st
  = (set_isRegenerating false st,
     [EvConsoleError "Regenerate all error:" error;
      EvAlert msg_regenerate_all_failed;
      EvSetIsRegenerating false],
     Finished).
Proof. reflexivity. Qed.

Lemma run_generateVideo_resolved confirm result st :
  run_sync confirm (generateVideo_settled (Resolved result)) st
  = (set_isRegenerating false (adopt_state result st),
     [EvSetScenarioId (ScenarioResult.scenarioId result);
      EvSetScenes (ScenarioResult.scenes result);
      EvWriteBaseline (ScenarioResult.scenes result);
      EvSetIsRegenerating false;
      EvOnNext],
     Finished).
Proof. reflexivity. Qed.

Lemma run_generateVideo_rejected confirm error st :
  run_sync confirm (generateVideo_settled (Rejected error)) st
  = (set_isRegenerating false st,
     [EvConsoleError "Auto-regenerate before render error:" error;
      EvAlert msg_sync_failed;
      EvSetIsRegenerating false],
     Finished).
Proof. reflexivity. Qed.

(** Protocol A: the three ways [handleRegenerateAll] runs. *)
Lemma run_handleRegenerateAll_no_scenario confirm st :
  truthy_scenarioId st = None →
  run_sync confirm (handleRegenerateAll st) st = (st, [], Finished).
Proof. intros H. unfold handleRegenerateAll. by rewrite H. Qed.

Lemma run_handleRegenerateAll_declined confirm st sid :
  truthy_scenarioId st = Some sid →
  confirm msg_confirm_regenerate_all = false →
  run_sync confirm (handleRegenerateAll st) st
  = (st, [EvConfirm msg_confirm_regenerate_all false], Finished).
Proof. intros H Hc. unfold handleRegenerateAll. rewrite H. simpl. by rewrite Hc. Qed.

Lemma run_handleRegenerateAll_accepted confirm st sid :
  truthy_scenarioId st = Some sid →
  confirm msg_confirm_regenerate_all = true →
  let base := regenerate_base (baselineScenesRef st) (scenes st) in
  run_sync confirm (handleRegenerateAll st) st
  = (install_scenes (regenerate_source (baselineScenesRef st)) base
       (set_isRegenerating true st),
     [EvConfirm msg_confirm_regenerate_all true;
      EvSetIsRegenerating true;
      EvSetScenes base;
      EvRegenerate sid (to_input <$> base) (characterImageUrl st)],
     Suspended regenerateAll_settled).
Proof. intros H Hc. unfold handleRegenerateAll. rewrite H. simpl. by rewrite Hc. Qed.

(** Protocol B after the edit guard. *)
Lemma run_generateVideo_sync_clean confirm sid st st0 :
  dirtyCount (dirtyInfo_of st) = 0%nat →
  run_sync confirm (generateVideo_sync sid st) st0 = (st0, [EvOnNext], Finished).
Proof. intros H. unfold generateVideo_sync. by rewrite H. Qed.

Lemma run_generateVideo_sync_dirty confirm sid st st0 :
  (0 < dirtyCount (dirtyInfo_of st))%nat →
  run_sync confirm (generateVideo_sync sid st) st0
  = (set_isRegenerating true st0,
     [EvSetIsRegenerating true;
      EvRegenerate sid (to_input <$> scenes st) (characterImageUrl st)],
     Suspended generateVideo_settled).
Proof.
  intros H. unfold generateVideo_sync.
  by rewrite bool_decide_eq_true_2 by done.
Qed.

Lemma run_handleGenerateVideoClick_no_scenario confirm st :
  truthy_scenarioId st = None →
  run_sync confirm (handleGenerateVideoClick st) st
  = (st, [EvAlert msg_no_scenarioId], Finished).
Proof. intros H. unfold handleGenerateVideoClick. by rewrite H. Qed.

Lemma run_handleGenerateVideoClick_declined confirm st sid :
  truthy_scenarioId st = Some sid →
  edit_guard confirm st = None →
  run_sync confirm (handleGenerateVideoClick st) st
  = (st, [EvConfirm msg_confirm_discard_edit false], Finished).
Proof.
  intros H. unfold handleGenerateVideoClick, edit_guard. rewrite H.
  destruct (editingSceneId st); [|done]. simpl.
  by destruct (confirm msg_confirm_discard_edit).
Qed.

Lemma run_handleGenerateVideoClick_guarded confirm st sid st0 evs0 :
  truthy_scenarioId st = Some sid →
  edit_guard confirm st = Some (st0, evs0) →
  run_sync confirm (handleGenerateVideoClick st) st
  = let '(st', evs, out) := run_sync confirm (generateVideo_sync sid st) st0 in
    (st', evs0 ++ evs, out).
Proof.
  intros H. unfold handleGenerateVideoClick, edit_guard. rewrite H.
  destruct (editingSceneId st).
  - simpl. destruct (confirm msg_confirm_discard_edit); [|done].
    intros [= <- <-]. simpl.
    by destruct (run_sync confirm (generateVideo_sync sid st) _) as [[??]?].
  - intros [= <- <-]. simpl.
    by destruct (run_sync confirm (generateVideo_sync sid st) st) as [[??]?].
Qed.
End Handlers.

(** ** The component machine: what each action can change *)

Section Machine.
Implicit Types (st : State) (c : Component) (a : Action).

Lemma run_handleSaveEdit confirm st :
  ∃ st' evs, run_sync confirm (handleSaveEdit st) st = (st', evs, Finished)
    ∧ isRegenerating st' = isRegenerating st
    ∧ baselineScenesRef st' = baselineScenesRef st
    ∧ scenarioId st' = scenarioId st
    ∧ length (scenes st') = length (scenes st).
Proof.
  unfold handleSaveEdit. destruct (editingSceneId st) as [editing|].
  - destruct (truthy_number editing); simpl; eexists _, _;
      (split; [reflexivity|]); simpl; repeat split; try done.
    by rewrite length_fmap.
  - eexists _, _. split; [reflexivity|]. done.
Qed.

(** A local edit leaves the flag, the baseline, the token, the calls in
    flight and the number of live scenes as they are. *)
Lemma dispatch_local_edit a c :
  local_edit a →
  ∃ st' evs, dispatch a c = ({| state := st'; inflight := inflight c |}, evs)
    ∧ isRegenerating st' = isRegenerating (state c)
    ∧ baselineScenesRef st' = baselineScenesRef (state c)
    ∧ scenarioId st' = scenarioId (state c)
    ∧ length (scenes st') = length (scenes (state c)).
Proof.
  destruct c as [st ks]. destruct a; try done; intros _; simpl.
  - destruct (scenes st !! n) as [sc|]; [|by eexists _, _].
    case_decide; [by eexists _, _|].
    eexists _, _. split; [reflexivity|].
    unfold render. simpl. by destruct (memoBase st).
  - eexists _, _. split; [reflexivity|].
    unfold render. simpl. by destruct (memoBase st).
  - unfold launch. simpl.
    destruct (run_handleSaveEdit no_confirm st)
      as (st' & evs & -> & Hf & Hb & Hi & Hl).
    eexists _, _. split; [reflexivity|].
    destruct (render_frame st') as (-> & -> & -> & _ & _ & _ & -> & _).
    done.
  - eexists _, _. split; [reflexivity|].
    unfold render. simpl. by destruct (memoBase st).
Qed.

Lemma dispatch_flag_tracks_inflight a c :
  flag_tracks_inflight c → flag_tracks_inflight (dispatch a c).1.
Proof.
  intros Hinv. destruct a.
  - (* REGENERATE ALL *)
    unfold dispatch, isRegenAllDisabled.
    destruct Hinv as [[Hk Hf] | (k & Hk & Hres & Hf)]; rewrite Hf; simpl;
      [|right; eauto].
    destruct (truthy_scenarioId (state c)) as [sid|] eqn:Hsid; simpl;
      [|by left].
    unfold launch.
    destruct (confirm msg_confirm_regenerate_all) eqn:Hc.
    + rewrite (run_handleRegenerateAll_accepted _ _ sid) by done.
      right. exists regenerateAll_settled.
      cbn -[render install_scenes]. rewrite Hk. repeat split; [by left|].
      by rewrite isRegenerating_render, isRegenerating_install_scenes.
    + rewrite (run_handleRegenerateAll_declined _ _ sid) by done.
      left. by frame.
  - (* generate video *)
    unfold dispatch.
    destruct Hinv as [[Hk Hf] | (k & Hk & Hres & Hf)]; rewrite Hf; simpl;
      [|right; eauto].
    unfold launch.
    destruct (truthy_scenarioId (state c)) as [sid|] eqn:Hsid.
    2:{ rewrite run_handleGenerateVideoClick_no_scenario by done.
        left. by frame. }
    destruct (edit_guard confirm (state c)) as [[st0 evs0]|] eqn:Hg.
    2:{ rewrite (run_handleGenerateVideoClick_declined _ _ sid) by done.
        left. by frame. }
    rewrite (run_handleGenerateVideoClick_guarded _ _ sid st0 evs0) by done.
    assert (Hf0 : isRegenerating st0 = false).
    { unfold edit_guard in Hg. destruct (editingSceneId (state c)).
      - destruct (confirm msg_confirm_discard_edit); [|done].
        by injection Hg as <- <-.
      - by injection Hg as <- <-. }
    destruct (decide (dirtyCount (dirtyInfo_of (state c)) = 0%nat)) as [Hz|Hnz].
    + rewrite run_generateVideo_sync_clean by done. left. by frame.
    + rewrite run_generateVideo_sync_dirty by lia.
      right. exists generateVideo_settled.
      cbn -[render install_scenes]. rewrite Hk. repeat split; [by right|].
      by rewrite isRegenerating_render.
  - destruct (dispatch_local_edit (ClickEdit n) c I) as (st' & evs & -> & Hf & _).
    simpl. unfold flag_tracks_inflight in *. simpl. by rewrite Hf.
  - destruct (dispatch_local_edit (TypeDescription v) c I) as (st' & evs & -> & Hf & _).
    simpl. unfold flag_tracks_inflight in *. simpl. by rewrite Hf.
  - destruct (dispatch_local_edit ClickSave c I) as (st' & evs & -> & Hf & _).
    simpl. unfold flag_tracks_inflight in *. simpl. by rewrite Hf.
  - destruct (dispatch_local_edit ClickCancel c I) as (st' & evs & -> & Hf & _).
    simpl. unfold flag_tracks_inflight in *. simpl. by rewrite Hf.
  - (* baseline effect *)
    simpl. unfold flag_tracks_inflight in *. simpl.
    replace (isRegenerating (baselineEffect (state c)))
      with (isRegenerating (state c)); [done|].
    unfold baselineEffect. by destruct (capture_fires (state c)); frame.
  - (* a call settles *)
    unfold dispatch.
    destruct Hinv as [[Hk Hf] | (k & Hk & Hres & Hf)]; rewrite Hk.
    + simpl. left. by rewrite Hk.
    + destruct n as [|n]; simpl; [|right; exists k; by rewrite Hk].
      unfold launch. left.
      destruct Hres as [-> | ->]; destruct r; by frame.
Qed.

Lemma reachable_flag_tracks_inflight c :
  reachable c → flag_tracks_inflight c.
Proof.
  induction 1 as [st Hst | a c _ IH].
  - left. by frame.
  - by apply dispatch_flag_tracks_inflight.
Qed.

(** A reachable component has been rendered: its memo is computed. *)
Lemma reachable_rendered c : reachable c → is_Some (memoBase (state c)).
Proof.
  induction 1 as [st Hst | a c _ IH]; [apply render_is_rendered|].
  assert (Hlaunch : ∀ confirm p c',
            is_Some (memoBase (state (launch confirm p c').1))).
  { intros confirm p c'. unfold launch.
    destruct (run_sync confirm p (state c')) as [[st' evs] out].
    apply render_is_rendered. }
  destruct a; unfold dispatch.
  - by destruct (isRegenAllDisabled (state c)).
  - by destruct (isRegenerating (state c)).
  - destruct (scenes (state c) !! n); [|done]. by case_decide.
  - apply Hlaunch.
  - apply Hlaunch.
  - apply Hlaunch.
  - cbn [fst state]. unfold baselineEffect.
    destruct (capture_fires (state c)); [|apply render_is_rendered].
    apply (render_is_rendered (state c)).
  - destruct (inflight c !! n); [apply Hlaunch | done].
Qed.
End Machine.

(** ** A collection compared with itself *)

Section SelfBaseline.
Implicit Types (l : list Scene).

Lemma NoDup_ids_same_description l :
  NoDup (ids l) → same_id_same_description l.
Proof.
  unfold ids. induction l as [|x l IH]; intros Hnd s t Hs Ht Hid.
  - by apply elem_of_nil in Hs.
  - rewrite fmap_cons in Hnd. apply NoDup_cons in Hnd as [Hx Hnd].
    assert (Hfresh : ∀ u, u ∈ l → scene_id u ≠ scene_id x).
    { intros u Hu Heq. apply Hx, list_elem_of_fmap. eauto. }
    apply elem_of_cons in Hs as [-> | Hs]; apply elem_of_cons in Ht as [-> | Ht].
    + done.
    + by destruct (Hfresh t Ht).
    + by destruct (Hfresh s Hs).
    + by apply IH.
Qed.

Lemma dirtyInfo_self l :
  dirtyCount (dirtyInfo l l) = 0%nat ↔ same_id_same_description l.
Proof.
  rewrite dirtyCount_length, length_zero_iff_nil. split.
  - intros Hnil s t Hs Ht Hid.
    destruct (baseMap l !! scene_id s) as [d|] eqn:Hl.
    2:{ by destruct (proj1 (baseMap_lookup_None l (scene_id s)) Hl s). }
    assert (Hclean : ∀ u, u ∈ l → scene_id u = scene_id s →
                          scene_description u = d).
    { intros u Hu Hidu. destruct (decide (d = scene_description u)); [done|].
      assert (Hin : scene_id u ∈ dirtyIds (dirtyInfo l l)).
      { apply elem_of_dirtyIds. exists u. repeat split; [done|].
        apply is_dirty_Some. exists d. by rewrite Hidu. }
      rewrite Hnil in Hin. by apply elem_of_nil in Hin. }
    by rewrite (Hclean s), (Hclean t).
  - intros Hsame. destruct (dirtyIds (dirtyInfo l l)) as [|i rest] eqn:Hd; [done|].
    assert (Hin : i ∈ dirtyIds (dirtyInfo l l)) by (rewrite Hd; apply list_elem_of_here).
    apply elem_of_dirtyIds in Hin as (s & Hs & _ & (d & Hl & Hne)%is_dirty_Some).
    apply baseMap_lookup_Some_elem in Hl as (b & Hb & Hid & <-).
    destruct Hne. by apply Hsame.
Qed.
End SelfBaseline.

(** ** Successful resync *)

(** C2: whenever a call of either resync protocol, in flight in a reachable
    component, resolves, the single step that settles it adopts the result's
    [scenarioId], sets the live collection and the baseline both to the
    returned scenes, leaves nothing in flight and clears the flag; its events
    are the three assignments in a row, so no state between two steps has
    one collection updated and not the other.  The dirty information the
    component then renders with is the dirty computation of the new live
    collection against the new baseline, and for returned scenes of the data
    model (unique ids) its [dirtyCount] is 0. *)
Theorem resync_success_adopts (c : Component) (n : nat)
    (k : RemoteResult → Prog) (result : ScenarioResult.t) :
  reachable c → inflight c !! n = Some k →
  let settled := dispatch (Settle n (Resolved result)) c in
  let st' := state settled.1 in
  resync_continuation k
  ∧ scenarioId st' = Some (ScenarioResult.scenarioId result)
  ∧ scenes st' = ScenarioResult.scenes result
  ∧ baselineScenesRef st' = ScenarioResult.scenes result
  ∧ inflight settled.1 = [] ∧ isRegenerating st' = false
  ∧ (∃ tail, settled.2
             = [EvSetScenarioId (ScenarioResult.scenarioId result);
                EvSetScenes (ScenarioResult.scenes result);
                EvWriteBaseline (ScenarioResult.scenes result);
                EvSetIsRegenerating false] ++ tail
             ∧ (tail = [] ∨ tail = [EvOnNext]))
  ∧ dirtyInfo_of st' = dirtyInfo (scenes st') (baselineScenesRef st')
  ∧ (NoDup (ids (ScenarioResult.scenes result)) →
     dirtyCount (dirtyInfo_of st') = 0%nat
     ∧ dirtyCount (dirtyInfo (scenes st') (baselineScenesRef st')) = 0%nat).
Proof.
  intros Hreach Hk.
  destruct (reachable_flag_tracks_inflight c Hreach)
    as [[Hnil _] | (k' & Hks & Hres & Hf)].
  { by rewrite Hnil in Hk. }
  rewrite Hks in Hk. destruct n as [|n]; [|done]. injection Hk as <-.
  unfold dispatch. rewrite Hks. simpl. unfold launch.
  destruct Hres as [-> | ->]; simpl;
    (split; [by (left + right)|]); repeat (split; [done|]);
    (split; [by eauto|]); (split; [done|]);
    intros Hnd; split; by apply dirtyInfo_self, NoDup_ids_same_description.
Qed.

(** C2, witness: the incremental sync of the specification's scenario; the
    returned ids are unique, the baseline is the answer and nothing is dirty. *)
Lemma resync_success_adopts_witness :
  reachable sample_syncing
  ∧ inflight sample_syncing !! 0%nat = Some generateVideo_settled
  ∧ NoDup (ids (ScenarioResult.scenes sample_result))
  ∧ baselineScenesRef
      (state (dispatch (Settle 0 (Resolved sample_result)) sample_syncing).1)
    = [scene 1 "A2"; scene 2 "B"]
  ∧ dirtyCount
      (dirtyInfo_of
         (state (dispatch (Settle 0 (Resolved sample_result)) sample_syncing).1))
    = 0%nat.
Proof.
  assert (Hr : reachable sample_syncing).
  { apply reachable_dispatch, (reachable_mount sample_state). reflexivity. }
  assert (Hk : inflight sample_syncing !! 0%nat = Some generateVideo_settled)
    by reflexivity.
  assert (Hnd : NoDup (ids (ScenarioResult.scenes sample_result)))
    by compute_done.
  split; [exact Hr|]. split; [exact Hk|]. split; [exact Hnd|].
  destruct (resync_success_adopts sample_syncing 0 generateVideo_settled
              sample_result Hr Hk)
    as (_ & _ & _ & Hbase & _ & _ & _ & _ & Hclean).
  split; [exact Hbase | exact (proj1 (Hclean Hnd))].
Defined.

(** An answer outside the data model, two scenes of id 1 with different
    descriptions, is adopted as any other; the map of the new baseline keeps
    the second description and the first scene is counted. *)
Example resync_adopts_repeated_id :
  dirtyInfo_of
    (state (dispatch (Settle 0 (Resolved repeated_id_result)) sample_syncing).1)
  = {| dirtyIds := [1]; dirtyCount := 1 |}.
Proof. reflexivity. Qed.

(** ** Protocol B on a clean scenario *)

(** C3 (amended): with a non-empty [scenarioId] and a dirty count of 0, the
    advance handler returns without suspending and issues no remote call; the
    live collection, the baseline and the [scenarioId] are unchanged; and it
    calls [onNext] exactly when no scene is open for editing or the user
    confirms to proceed without saving.  The three runs are these and no
    other: with no scene open the state is unchanged and [onNext] is the only
    event; with a scene open and the confirmation accepted the editor is
    closed ([editingSceneId] null, [editedDescription] empty), nothing else
    changes, and [onNext] follows the two assignments; with a scene open and
    the confirmation declined the state is unchanged and the prompt is the
    only event. *)
Theorem generateVideo_clean_advances (st : State) (confirm : string → bool)
    (sid : string) :
  truthy_scenarioId st = Some sid →
  dirtyCount (dirtyInfo_of st) = 0%nat →
  ∃ st' evs,
    run_sync confirm (handleGenerateVideoClick st) st = (st', evs, Finished)
    ∧ (∀ sid' inputs image, EvRegenerate sid' inputs image ∉ evs)
    ∧ scenes st' = scenes st
    ∧ baselineScenesRef st' = baselineScenesRef st
    ∧ scenarioId st' = scenarioId st
    ∧ (EvOnNext ∈ evs ↔
       editingSceneId st = None ∨ confirm msg_confirm_discard_edit = true)
    ∧ (editingSceneId st = None → st' = st ∧ evs = [EvOnNext])
    ∧ (editingSceneId st ≠ None → confirm msg_confirm_discard_edit = true →
       st' = set_editedDescription "" (set_editingSceneId None st)
       ∧ editingSceneId st' = None ∧ editedDescription st' = ""
       ∧ evs = [EvConfirm msg_confirm_discard_edit true;
                EvSetEditingSceneId None;
                EvSetEditedDescription "";
                EvOnNext])
    ∧ (editingSceneId st ≠ None → confirm msg_confirm_discard_edit = false →
       st' = st ∧ evs = [EvConfirm msg_confirm_discard_edit false]).
Proof.
  intros Hsid Hclean.
  destruct (edit_guard confirm st) as [[st0 evs0]|] eqn:Hg.
  - rewrite (run_handleGenerateVideoClick_guarded _ _ sid st0 evs0) by done.
    rewrite run_generateVideo_sync_clean by done.
    exists st0, (evs0 ++ [EvOnNext]). split; [done|].
    unfold edit_guard in Hg. destruct (editingSceneId st) as [e|] eqn:He.
    + destruct (confirm msg_confirm_discard_edit) eqn:Hc; [|done].
      injection Hg as <- <-. simpl. repeat split; try done.
      * intros ???. set_solver.
      * intros _. by right.
      * set_solver.
    + injection Hg as <- <-. simpl. repeat split; try done.
      * intros ???. set_solver.
      * intros _. by left.
      * set_solver.
  - rewrite (run_handleGenerateVideoClick_declined _ _ sid) by done.
    eexists _, _. split; [done|].
    unfold edit_guard in Hg. destruct (editingSceneId st) as [e|] eqn:He; [|done].
    destruct (confirm msg_confirm_discard_edit) eqn:Hc; [done|].
    repeat split; try done.
    + intros ???. set_solver.
    + set_solver.
    + intros [? | ?]; done.
Qed.

(** C3, witness: the clean sample scenario with scene 1 open in the editor
    and the confirmation accepted: the editor is closed and [onNext] is
    called, with no remote call. *)
Lemma generateVideo_clean_advances_witness :
  truthy_scenarioId editing_clean_state = Some "s1"
  ∧ dirtyCount (dirtyInfo_of editing_clean_state) = 0%nat
  ∧ run_sync accept (handleGenerateVideoClick editing_clean_state)
      editing_clean_state
    = (set_editedDescription "" (set_editingSceneId None editing_clean_state),
       [EvConfirm msg_confirm_discard_edit true;
        EvSetEditingSceneId None;
        EvSetEditedDescription "";
        EvOnNext],
       Finished).
Proof.
  assert (Hs : truthy_scenarioId editing_clean_state = Some "s1") by reflexivity.
  assert (Hc : dirtyCount (dirtyInfo_of editing_clean_state) = 0%nat)
    by reflexivity.
  split; [exact Hs|]. split; [exact Hc|].
  destruct (generateVideo_clean_advances editing_clean_state accept "s1" Hs Hc)
    as (st' & evs & Hrun & _ & _ & _ & _ & _ & _ & Hyes & _).
  destruct Hyes as (-> & _ & _ & ->); [done | reflexivity |].
  exact Hrun.
Defined.

(** C3, counterexample: a clean scenario with scene 1 open in the editor;
    the user declines to proceed without saving and [onNext] is not called. *)
Lemma generateVideo_clean_declined :
  truthy_scenarioId editing_clean_state = Some "s1"
  ∧ dirtyCount (dirtyInfo_of editing_clean_state) = 0%nat
  ∧ run_sync decline (handleGenerateVideoClick editing_clean_state)
      editing_clean_state
    = (editing_clean_state, [EvConfirm msg_confirm_discard_edit false], Finished)
  ∧ EvOnNext ∉ [EvConfirm msg_confirm_discard_edit false].
Proof.
  split; [reflexivity|]. split; [reflexivity|]. split; [reflexivity|].
  set_solver.
Qed.

(** ** Protocol B when the remote call fails *)

(** C4: when the advance handler has issued its remote call, the state at
    that point holds the live collection, the baseline and the [scenarioId]
    of the start, and [onNext] was not called; and when the call is rejected,
    from whatever state the component is in by then, the handler finishes
    without touching the live collection, the baseline or the [scenarioId],
    alerts the user, clears the flag and does not call [onNext]. *)
Theorem generateVideo_failure_keeps_state (st st1 : State)
    (confirm : string → bool) (evs1 : list Event) (k : RemoteResult → Prog) :
  run_sync confirm (handleGenerateVideoClick st) st = (st1, evs1, Suspended k) →
  (scenes st1 = scenes st
   ∧ baselineScenesRef st1 = baselineScenesRef st
   ∧ scenarioId st1 = scenarioId st
   ∧ EvOnNext ∉ evs1)
  ∧ ∀ (error : string) (confirm' : string → bool) (st2 : State),
      ∃ st3 evs3,
        run_sync confirm' (k (Rejected error)) st2 = (st3, evs3, Finished)
        ∧ scenes st3 = scenes st2
        ∧ baselineScenesRef st3 = baselineScenesRef st2
        ∧ scenarioId st3 = scenarioId st2
        ∧ isRegenerating st3 = false
        ∧ EvAlert msg_sync_failed ∈ evs3
        ∧ EvOnNext ∉ evs3.
Proof.
  destruct (truthy_scenarioId st) as [sid|] eqn:Hsid.
  2:{ by rewrite run_handleGenerateVideoClick_no_scenario. }
  destruct (edit_guard confirm st) as [[st0 evs0]|] eqn:Hg.
  2:{ by rewrite (run_handleGenerateVideoClick_declined _ _ sid). }
  rewrite (run_handleGenerateVideoClick_guarded _ _ sid st0 evs0) by done.
  destruct (decide (dirtyCount (dirtyInfo_of st) = 0%nat)) as [Hz|Hnz].
  { by rewrite run_generateVideo_sync_clean. }
  rewrite run_generateVideo_sync_dirty by lia.
  intros [= <- <- <-]. split.
  - unfold edit_guard in Hg. destruct (editingSceneId st) as [e|].
    + destruct (confirm msg_confirm_discard_edit); [|done].
      injection Hg as <- <-. simpl. repeat split; try done. set_solver.
    + injection Hg as <- <-. simpl. repeat split; try done. set_solver.
  - intros error confirm' st2. rewrite run_generateVideo_rejected.
    eexists _, _. split; [done|]. simpl. repeat split; try done; set_solver.
Qed.

(** C4, witness: the edited sample scenario, whose sync is issued. *)
Lemma generateVideo_failure_keeps_state_witness :
  ∃ st1 evs1,
    run_sync accept (handleGenerateVideoClick sample_state) sample_state
    = (st1, evs1, Suspended generateVideo_settled)
    ∧ scenes st1 = sample_live
    ∧ ∃ st3 evs3,
        run_sync accept (generateVideo_settled (Rejected "503")) st1
        = (st3, evs3, Finished)
        ∧ scenes st3 = scenes st1
        ∧ baselineScenesRef st3 = baselineScenesRef st1
        ∧ scenarioId st3 = scenarioId st1
        ∧ isRegenerating st3 = false
        ∧ EvAlert msg_sync_failed ∈ evs3
        ∧ EvOnNext ∉ evs3.
Proof.
  eexists _, _. split; [reflexivity|].
  destruct (generateVideo_failure_keeps_state sample_state _ accept _
              generateVideo_settled eq_refl) as [(Hs & _) Hfail].
  split; [exact Hs|]. apply Hfail.
Defined.

(** ** Protocol A: reset, then call *)

(** C5: when [handleRegenerateAll] runs with a non-empty [scenarioId] and the
    confirmation accepted, the source is the baseline when it is non-empty and
    the live collection otherwise; the events up to the suspension are the
    confirmation, the flag, the reset of the live collection to the source
    and then the remote call with the source's (id, description) pairs, so
    the state in which the call is issued already shows the source and the
    old baseline; and when the call is rejected from that state, the live
    collection is still the source, the baseline is untouched, no further
    [setScenes] happens, the user is alerted and the flag is cleared. *)
Theorem regenerateAll_resets_before_call (st : State)
    (confirm : string → bool) (sid : string) :
  truthy_scenarioId st = Some sid →
  confirm msg_confirm_regenerate_all = true →
  let source := regenerate_base (baselineScenesRef st) (scenes st) in
  (baselineScenesRef st ≠ [] → source = baselineScenesRef st)
  ∧ (baselineScenesRef st = [] → source = scenes st)
  ∧ ∃ st1,
      run_sync confirm (handleRegenerateAll st) st
      = (st1,
         [EvConfirm msg_confirm_regenerate_all true;
          EvSetIsRegenerating true;
          EvSetScenes source;
          EvRegenerate sid (to_input <$> source) (characterImageUrl st)],
         Suspended regenerateAll_settled)
      ∧ scenes st1 = source
      ∧ baselineScenesRef st1 = baselineScenesRef st
      ∧ ∀ (error : string) (confirm' : string → bool),
          ∃ st3 evs3,
            run_sync confirm' (regenerateAll_settled (Rejected error)) st1
            = (st3, evs3, Finished)
            ∧ scenes st3 = source
            ∧ baselineScenesRef st3 = baselineScenesRef st
            ∧ scenarioId st3 = scenarioId st
            ∧ isRegenerating st3 = false
            ∧ EvAlert msg_regenerate_all_failed ∈ evs3
            ∧ (∀ v, EvSetScenes v ∉ evs3).
Proof.
  intros Hsid Hc source. split; [|split].
  - intros Hne. unfold source, regenerate_base.
    rewrite bool_decide_eq_true_2; [done|].
    destruct (baselineScenesRef st); [done|simpl; lia].
  - intros He. unfold source, regenerate_base. by rewrite He.
  - rewrite (run_handleRegenerateAll_accepted _ _ sid) by done.
    eexists. split; [reflexivity|].
    split; [apply scenes_install_scenes|].
    split; [by rewrite baselineScenesRef_install_scenes|].
    intros error confirm'. rewrite run_regenerateAll_rejected.
    eexists _, _. split; [reflexivity|]. frame.
    repeat split; try done; [set_solver|]. intros v. set_solver.
Qed.

(** C5, witness: the edited sample scenario; the live collection is reset to
    the baseline before the call. *)
Lemma regenerateAll_resets_before_call_witness :
  truthy_scenarioId sample_state = Some "s1"
  ∧ accept msg_confirm_regenerate_all = true
  ∧ ∃ st1,
      run_sync accept (handleRegenerateAll sample_state) sample_state
      = (st1,
         [EvConfirm msg_confirm_regenerate_all true;
          EvSetIsRegenerating true;
          EvSetScenes sample_baseline;
          EvRegenerate "s1" [SceneInput.mk 1 "A"; SceneInput.mk 2 "B"]
            "/img/c.png"],
         Suspended regenerateAll_settled)
      ∧ scenes st1 = sample_baseline.
Proof.
  split; [reflexivity|]. split; [reflexivity|].
  destruct (regenerateAll_resets_before_call sample_state accept "s1"
              eq_refl eq_refl) as (_ & _ & st1 & Hrun & Hsc & _).
  exists st1. split; [exact Hrun | exact Hsc].
Defined.

(** ** One resync at a time *)

Section MutualExclusion.
Implicit Types (st : State) (c : Component) (a : Action).

(** A resync click on an idle component either issues no call, or ends its
    synchronous segment with the flag set and the call as the last event,
    the flag having been set before. *)
Lemma resync_click_sets_flag a c :
  resync_click a → inflight c = [] → isRegenerating (state c) = false →
  let started := dispatch a c in
  inflight started.1 = []
  ∨ (isRegenerating (state started.1) = true
     ∧ ∃ k pre sid inputs image,
         inflight started.1 = [k]
         ∧ started.2 = pre ++ [EvRegenerate sid inputs image]
         ∧ EvSetIsRegenerating true ∈ pre
         ∧ ∀ sid' inputs' image', EvRegenerate sid' inputs' image' ∉ pre).
Proof.
  intros Ha Hk Hf. destruct a; try done; clear Ha.
  - unfold dispatch, isRegenAllDisabled. rewrite Hf. simpl.
    destruct (truthy_scenarioId (state c)) as [sid|] eqn:Hsid; simpl;
      [|by left].
    unfold launch.
    destruct (confirm msg_confirm_regenerate_all) eqn:Hc.
    + rewrite (run_handleRegenerateAll_accepted _ _ sid) by done.
      right. frame. split; [done|]. rewrite Hk.
      eexists _, [_; _; _], _, _, _. split; [done|]. split; [done|].
      split; [set_solver|]. intros ???. set_solver.
    + rewrite (run_handleRegenerateAll_declined _ _ sid) by done. by left.
  - unfold dispatch. rewrite Hf. unfold launch.
    destruct (truthy_scenarioId (state c)) as [sid|] eqn:Hsid.
    2:{ rewrite run_handleGenerateVideoClick_no_scenario by done.
        left. by frame. }
    destruct (edit_guard confirm (state c)) as [[st0 evs0]|] eqn:Hg.
    2:{ rewrite (run_handleGenerateVideoClick_declined _ _ sid) by done.
        left. by frame. }
    rewrite (run_handleGenerateVideoClick_guarded _ _ sid st0 evs0) by done.
    destruct (decide (dirtyCount (dirtyInfo_of (state c)) = 0%nat)) as [Hz|Hnz].
    { rewrite run_generateVideo_sync_clean by done. by left. }
    rewrite run_generateVideo_sync_dirty by lia.
    right. frame. split; [done|]. rewrite Hk.
    exists generateVideo_settled, (evs0 ++ [EvSetIsRegenerating true]).
    eexists _, _, _. split; [done|]. split; [by rewrite <- app_assoc|].
    unfold edit_guard in Hg. destruct (editingSceneId (state c)).
    + destruct (confirm msg_confirm_discard_edit); [|done].
      injection Hg as <- <-. split; [set_solver|]. intros ???. set_solver.
    + injection Hg as <- <-. split; [set_solver|]. intros ???. set_solver.
Qed.

(** C6: in every reachable component at most one remote call is in flight,
    and one is in flight exactly when the flag is set.  While the flag is
    set, in any component whatever, a click on either resync button is
    ignored: the component is unchanged and no event, hence no remote call,
    occurs (the buttons are disabled; the handlers themselves do not read
    the flag).  While it is not
    set, a resync click that issues a call has set the flag before the call,
    which is the last event of its synchronous segment.  And when the call in
    flight settles, resolved or rejected, the flag is cleared and nothing is
    left in flight. *)
Theorem resync_mutual_exclusion c :
  reachable c →
  (length (inflight c) ≤ 1)%nat
  ∧ (inflight c ≠ [] ↔ isRegenerating (state c) = true)
  ∧ (∀ c', isRegenerating (state c') = true →
     ∀ a, resync_click a → dispatch a c' = (c', []))
  ∧ (isRegenerating (state c) = false →
     ∀ a, resync_click a →
       let started := dispatch a c in
       inflight started.1 ≠ [] →
       isRegenerating (state started.1) = true
       ∧ ∃ pre sid inputs image,
           started.2 = pre ++ [EvRegenerate sid inputs image]
           ∧ EvSetIsRegenerating true ∈ pre
           ∧ ∀ sid' inputs' image', EvRegenerate sid' inputs' image' ∉ pre)
  ∧ (∀ n r, (n < length (inflight c))%nat →
       let settled := dispatch (Settle n r) c in
       isRegenerating (state settled.1) = false ∧ inflight settled.1 = []).
Proof.
  intros Hreach. pose proof (reachable_flag_tracks_inflight c Hreach) as Hinv.
  split; [|split; [|split; [|split]]].
  - destruct Hinv as [[-> _] | (k & -> & _)]; simpl; lia.
  - destruct Hinv as [[-> Hf] | (k & -> & _ & Hf)]; rewrite Hf; split;
      done.
  - intros c' Hf a Ha.
    destruct a; try done; unfold dispatch, isRegenAllDisabled; by rewrite Hf.
  - intros Hf a Ha started Hstarted.
    destruct Hinv as [[Hk _] | (k & _ & _ & Hf')]; [|congruence].
    destruct (resync_click_sets_flag a c Ha Hk Hf)
      as [Hnone | (Hflag & k & pre & sid & inputs & image & _ & Hev & Hpre)].
    + done.
    + split; [done|]. by exists pre, sid, inputs, image.
  - intros n r Hn.
    destruct Hinv as [[Hk _] | (k & Hk & Hres & Hf)].
    { rewrite Hk in Hn. simpl in Hn. lia. }
    rewrite Hk in Hn. simpl in Hn. assert (n = 0%nat) as -> by lia.
    unfold dispatch. rewrite Hk. simpl. unfold launch.
    destruct Hres as [-> | ->]; destruct r; by frame.
Qed.

(** C6, witness: the sample component with its incremental sync in flight;
    both resync buttons are dead until the call settles. *)
Lemma resync_mutual_exclusion_witness :
  reachable sample_syncing
  ∧ isRegenerating (state sample_syncing) = true
  ∧ dispatch (ClickRegenerateAll accept) sample_syncing = (sample_syncing, [])
  ∧ dispatch (ClickGenerateVideo accept) sample_syncing = (sample_syncing, []).
Proof.
  assert (Hr : reachable sample_syncing).
  { apply reachable_dispatch, (reachable_mount sample_state). reflexivity. }
  destruct (resync_mutual_exclusion sample_syncing Hr)
    as (_ & _ & Hignored & _).
  split; [exact Hr|]. split; [reflexivity|].
  split; apply Hignored; reflexivity || exact I.
Defined.

(** The guard is the [disabled] attribute of the two buttons: a handler
    called with the flag already set would still issue its call. *)
Example handler_does_not_read_flag :
  let st := set_isRegenerating true sample_state in
  (run_sync accept (handleRegenerateAll st) st).1.2
  = [EvConfirm msg_confirm_regenerate_all true;
     EvSetIsRegenerating true;
     EvSetScenes sample_baseline;
     EvRegenerate "s1" [SceneInput.mk 1 "A"; SceneInput.mk 2 "B"] "/img/c.png"].
Proof. reflexivity. Qed.
End MutualExclusion.

(** ** The baseline: captured once, replaced only by a resync *)

Section Baseline.
Implicit Types (st : State) (c : Component) (a : Action).

Lemma capture_fires_spec st :
  capture_fires st = true ↔ baselineScenesRef st = [] ∧ scenes st ≠ [].
Proof.
  unfold capture_fires.
  rewrite andb_true_iff, !bool_decide_eq_true, length_zero_iff_nil.
  destruct (scenes st); simpl; split; intros [? ?]; split; try done; lia.
Qed.

Lemma capture_fires_captured st : captured st → capture_fires st = false.
Proof.
  intros Hc. destruct (capture_fires st) eqn:Hf; [|done].
  apply capture_fires_spec in Hf as [He Hne]. by destruct Hne, Hc.
Qed.

Lemma baselineEffect_captured st : captured (baselineEffect st).
Proof.
  unfold baselineEffect, captured. destruct (capture_fires st) eqn:Hf; frame.
  - intros He. exact He.
  - intros He. destruct (scenes st) as [|x l] eqn:Hs; [done|].
    assert (capture_fires st = true); [|congruence].
    apply capture_fires_spec. by rewrite Hs.
Qed.

(** A resync click leaves the baseline and the token; only REGENERATE ALL
    moves the live collection, to the source. *)
Lemma dispatch_resync_click_frame a c :
  resync_click a →
  let st' := state (dispatch a c).1 in
  baselineScenesRef st' = baselineScenesRef (state c)
  ∧ scenarioId st' = scenarioId (state c)
  ∧ (scenes st' = scenes (state c)
     ∨ scenes st'
       = regenerate_base (baselineScenesRef (state c)) (scenes (state c))).
Proof.
  intros Ha. destruct a; try done; clear Ha; unfold dispatch.
  - destruct (isRegenAllDisabled (state c)); [by auto|]. unfold launch.
    destruct (truthy_scenarioId (state c)) as [sid|] eqn:Hsid.
    2:{ rewrite run_handleRegenerateAll_no_scenario by done. frame. by auto. }
    destruct (confirm msg_confirm_regenerate_all) eqn:Hc.
    + rewrite (run_handleRegenerateAll_accepted _ _ sid) by done. frame. by auto.
    + rewrite (run_handleRegenerateAll_declined _ _ sid) by done. frame. by auto.
  - destruct (isRegenerating (state c)); [by auto|]. unfold launch.
    destruct (truthy_scenarioId (state c)) as [sid|] eqn:Hsid.
    2:{ rewrite run_handleGenerateVideoClick_no_scenario by done. frame. by auto. }
    destruct (edit_guard confirm (state c)) as [[st0 evs0]|] eqn:Hg.
    2:{ rewrite (run_handleGenerateVideoClick_declined _ _ sid) by done.
        frame. by auto. }
    rewrite (run_handleGenerateVideoClick_guarded _ _ sid st0 evs0) by done.
    assert (baselineScenesRef st0 = baselineScenesRef (state c)
            ∧ scenarioId st0 = scenarioId (state c)
            ∧ scenes st0 = scenes (state c)) as (Hb & Hi & Hs).
    { unfold edit_guard in Hg. destruct (editingSceneId (state c)).
      - destruct (confirm msg_confirm_discard_edit); [|done].
        by injection Hg as <- <-.
      - by injection Hg as <- <-. }
    destruct (decide (dirtyCount (dirtyInfo_of (state c)) = 0%nat)) as [Hz|Hnz].
    + rewrite run_generateVideo_sync_clean by done. frame. by auto.
    + rewrite run_generateVideo_sync_dirty by lia. frame. by auto.
Qed.

(** What an action can do to the baseline. *)
Lemma dispatch_baseline a c :
  flag_tracks_inflight c →
  let st' := state (dispatch a c).1 in
  baselineScenesRef st' = baselineScenesRef (state c)
  ∨ (a = RunBaselineEffect ∧ capture_fires (state c) = true
     ∧ baselineScenesRef st' = scenes (state c))
  ∨ (∃ n result k,
       a = Settle n (Resolved result) ∧ inflight c !! n = Some k
       ∧ resync_continuation k
       ∧ baselineScenesRef st' = ScenarioResult.scenes result).
Proof.
  intros Hinv. destruct a.
  - left. by apply (dispatch_resync_click_frame (ClickRegenerateAll confirm)).
  - left. by apply (dispatch_resync_click_frame (ClickGenerateVideo confirm)).
  - left. by destruct (dispatch_local_edit (ClickEdit n) c I) as (?&?&->&?&?&?).
  - left. by destruct (dispatch_local_edit (TypeDescription v) c I) as (?&?&->&?&?&?).
  - left. by destruct (dispatch_local_edit ClickSave c I) as (?&?&->&?&?&?).
  - left. by destruct (dispatch_local_edit ClickCancel c I) as (?&?&->&?&?&?).
  - simpl. unfold baselineEffect.
    destruct (capture_fires (state c)) eqn:Hf; [right; left | left];
      by frame.
  - unfold dispatch.
    destruct Hinv as [[Hk Hf] | (k & Hk & Hres & Hf)]; rewrite Hk.
    { by left. }
    destruct n as [|n]; [|by left]. simpl. unfold launch.
    destruct r as [result|error].
    + right. right. exists 0%nat, result, k.
      repeat split; [done|]. by destruct Hres as [-> | ->]; frame.
    + left. by destruct Hres as [-> | ->]; frame.
Qed.

Lemma dispatch_captured a c :
  flag_tracks_inflight c → captured (state c) →
  captured (state (dispatch a c).1).
Proof.
  intros Hinv Hc.
  assert (Hlocal : local_edit a → captured (state (dispatch a c).1)).
  { intros Ha. destruct (dispatch_local_edit a c Ha)
      as (st' & evs & -> & _ & Hb & _ & Hlen).
    simpl. intros He. rewrite Hb in He. specialize (Hc He).
    rewrite Hc in Hlen. by apply length_zero_iff_nil. }
  assert (Hclick : resync_click a → captured (state (dispatch a c).1)).
  { intros Ha. destruct (dispatch_resync_click_frame a c Ha) as (Hb & _ & Hs).
    intros He. rewrite Hb in He. destruct Hs as [-> | ->]; [by apply Hc|].
    rewrite He. by apply Hc. }
  destruct a; try (by apply Hlocal); try (by apply Hclick).
  - apply baselineEffect_captured.
  - unfold dispatch.
    destruct Hinv as [[Hk Hf] | (k & Hk & Hres & Hf)]; rewrite Hk; [done|].
    destruct n as [|n]; [|done]. simpl. unfold launch.
    destruct Hres as [-> | ->]; destruct r; unfold captured in *; frame; auto.
Qed.

Lemma captures_captured acts c :
  flag_tracks_inflight c → captured (state c) → captures acts c = 0%nat.
Proof.
  revert c. induction acts as [|a acts IH]; intros c Hinv Hc; [done|].
  cbn [captures]. rewrite IH.
  - destruct a; try done. by rewrite capture_fires_captured.
  - by apply dispatch_flag_tracks_inflight.
  - by apply dispatch_captured.
Qed.

Lemma captures_at_most_once acts c :
  flag_tracks_inflight c → (captures acts c ≤ 1)%nat.
Proof.
  revert c. induction acts as [|a acts IH]; intros c Hinv; cbn [captures];
    [lia|].
  pose proof (IH _ (dispatch_flag_tracks_inflight a c Hinv)) as Hle.
  destruct a; try lia.
  destruct (capture_fires (state c)); [|lia].
  rewrite captures_captured; [lia | | apply baselineEffect_captured].
  by apply (dispatch_flag_tracks_inflight RunBaselineEffect).
Qed.

(** C7: in a reachable component, the baseline effect changes the baseline
    only when it is empty and the live collection is not, and then sets it to
    the live collection; along any run it does so at most once, and never
    once the baseline is non-empty.  A local edit never changes the baseline,
    and the effect leaves a component with a non-empty baseline as it is.
    An action that changes a non-empty baseline is the settling of a resync
    call that resolved, and the new baseline is the returned collection. *)
Theorem baseline_captured_once c a acts :
  reachable c →
  let st := state c in
  let st' := state (dispatch a c).1 in
  (baselineScenesRef (baselineEffect st) ≠ baselineScenesRef st →
   baselineScenesRef st = [] ∧ scenes st ≠ []
   ∧ baselineScenesRef (baselineEffect st) = scenes st)
  ∧ (captures acts c ≤ 1)%nat
  ∧ (baselineScenesRef st ≠ [] → captures acts c = 0%nat)
  ∧ (local_edit a → baselineScenesRef st' = baselineScenesRef st)
  ∧ (a = RunBaselineEffect → baselineScenesRef st ≠ [] → dispatch a c = (c, []))
  ∧ (baselineScenesRef st ≠ [] →
     baselineScenesRef st' ≠ baselineScenesRef st →
     ∃ n result k,
       a = Settle n (Resolved result) ∧ inflight c !! n = Some k
       ∧ resync_continuation k
       ∧ baselineScenesRef st' = ScenarioResult.scenes result).
Proof.
  intros Hreach. cbv zeta.
  pose proof (reachable_flag_tracks_inflight c Hreach) as Hinv.
  split; [|split; [|split; [|split; [|split]]]].
  - unfold baselineEffect.
    destruct (capture_fires (state c)) eqn:Hf; frame; [|done].
    intros _. by apply capture_fires_spec in Hf as [? ?].
  - by apply captures_at_most_once.
  - intros Hne. apply captures_captured; [done|]. by intros He.
  - intros Ha. by destruct (dispatch_local_edit a c Ha) as (?&?&->&?&?&?).
  - intros -> Hne. simpl. unfold baselineEffect.
    rewrite capture_fires_captured by (by intros He).
    rewrite render_rendered by (by apply reachable_rendered).
    by destruct c.
  - intros Hne Hchg.
    destruct (dispatch_baseline a c Hinv) as [Hsame | [(_ & Hf & _) | Hres]].
    + done.
    + apply capture_fires_spec in Hf as [He _]. by destruct Hne.
    + exact Hres.
Qed.

(** C7, witness: a freshly mounted component; the effect captures the sample
    scenes, an edit is saved, and the effect runs again without capturing. *)
Lemma baseline_captured_once_witness :
  reachable (idle fresh_state)
  ∧ (captures [RunBaselineEffect; ClickEdit 0; TypeDescription "A2";
               ClickSave; RunBaselineEffect] (idle fresh_state) ≤ 1)%nat.
Proof.
  assert (Hr : reachable (idle fresh_state))
    by (apply (reachable_mount fresh_state); reflexivity).
  split; [exact Hr|].
  exact (proj1 (proj2 (baseline_captured_once (idle fresh_state) ClickSave
    [RunBaselineEffect; ClickEdit 0; TypeDescription "A2"; ClickSave;
     RunBaselineEffect] Hr))).
Defined.

Example capture_then_edit :
  let run := exec [RunBaselineEffect; ClickEdit 0; TypeDescription "A2";
                   ClickSave; RunBaselineEffect] (idle fresh_state) in
  baselineScenesRef (state run.1) = sample_baseline
  ∧ scenes (state run.1) = sample_live
  ∧ dirtyInfo_of (state run.1) = {| dirtyIds := [1]; dirtyCount := 1 |}.
Proof. by vm_compute. Qed.
End Baseline.

(** ** Saving an edit *)

Section SaveEdit.
Implicit Types (st : State) (s : Scene).

Lemma save_scene_other editing edited s :
  scene_id s ≠ editing → save_scene editing edited s = s.
Proof. intros Hne. unfold save_scene. by rewrite decide_False. Qed.

Lemma save_scene_match editing edited s :
  scene_id s = editing →
  save_scene editing edited s = SceneOutput.with_description s edited.
Proof. intros He. unfold save_scene. by rewrite decide_True. Qed.

(** For an editing id other than 0, [handleSaveEdit] does what the store's
    [editSceneDescription] promises: same length, same ids in the same order,
    the description replaced in the scenes of that id with their other fields
    kept, every other scene untouched, and the collection unchanged when no
    scene has the id. *)
Lemma handleSaveEdit_nonzero st confirm editing :
  editingSceneId st = Some editing → editing ≠ 0 →
  ∃ st',
    run_sync confirm (handleSaveEdit st) st
    = (st',
       [EvSetScenes (save_scene editing (editedDescription st) <$> scenes st);
        EvSetEditingSceneId None; EvSetEditedDescription ""],
       Finished)
    ∧ baselineScenesRef st' = baselineScenesRef st
    ∧ length (scenes st') = length (scenes st)
    ∧ ids (scenes st') = ids (scenes st)
    ∧ (∀ i s, scenes st !! i = Some s →
         scenes st' !! i
         = Some (if decide (scene_id s = editing)
                 then SceneOutput.mk (scene_id s) (editedDescription st)
                        (SceneOutput.imageUrl s) (SceneOutput.videoUrl s)
                        (SceneOutput.title s) (SceneOutput.duration_sec s)
                 else s))
    ∧ ((∀ s, s ∈ scenes st → scene_id s ≠ editing) → scenes st' = scenes st).
Proof.
  intros He Hnz. unfold handleSaveEdit. rewrite He.
  unfold truthy_number. rewrite bool_decide_eq_true_2 by done.
  eexists. split; [reflexivity|]. simpl. split; [done|].
  split; [by rewrite length_fmap|]. split; [|split].
  - unfold ids. rewrite <- list_fmap_compose. apply list_fmap_ext.
    intros i s _. simpl. unfold save_scene. by case_decide.
  - intros i s Hi. rewrite list_lookup_fmap, Hi. simpl.
    unfold save_scene. by case_decide.
  - intros Hnone. rewrite <- (list_fmap_id (scenes st)) at 2.
    apply list_fmap_ext. intros i s Hi. apply save_scene_other, Hnone.
    by apply list_elem_of_lookup_2 in Hi.
Qed.

(** C9, at the failing input: scene 0 is open in the editor with a new
    description typed; [if (editingSceneId)] is false for the id 0, so the
    save runs no command at all: the live collection keeps the old
    description and the editor stays open. *)
Theorem handleSaveEdit_id_zero :
  scene 0 "A" ∈ scenes editing_zero_state
  ∧ editingSceneId editing_zero_state = Some 0
  ∧ editedDescription editing_zero_state = "A2"
  ∧ run_sync decline (handleSaveEdit editing_zero_state) editing_zero_state
    = (editing_zero_state, [], Finished)
  ∧ dispatch ClickSave (idle editing_zero_state)
    = (idle editing_zero_state, []).
Proof.
  split; [apply list_elem_of_here|]. repeat split; reflexivity.
Qed.

(** The sibling test: the advance handler treats the id 0 as an open edit. *)
Example generateVideo_sees_edit_zero :
  (run_sync decline (handleGenerateVideoClick editing_zero_state)
     editing_zero_state).1.2
  = [EvConfirm msg_confirm_discard_edit false].
Proof. reflexivity. Qed.
End SaveEdit.

(** ** Numbers in template literals *)

Section NumberToString.
Implicit Types (m e x v p n : Z) (j : nat).

Lemma closest_multiple_reads_back m e x p v :
  closest_multiple m e x p = Some v → reads_back m e v = true.
Proof.
  unfold closest_multiple.
  destruct (reads_back m e (x / p * p)) eqn:Hb,
           (reads_back m e (x / p * p + p)) eqn:Ha;
    repeat case_match; intros [= <-]; done.
Qed.

(** What is printed reads back as the number it is printed for. *)
Lemma shortest_reads_back m e x j p :
  reads_back m e x = true → reads_back m e (shortest m e x j p).1 = true.
Proof.
  intros Hx. revert p. induction j as [|j IH]; intros p; simpl; [done|].
  destruct (closest_multiple m e x p) as [v|] eqn:Hc; [|apply IH].
  by apply closest_multiple_reads_back in Hc.
Qed.

(** An integer below [2^53] is a double, and nothing else reads back as
    it. *)
Lemma reads_back_exact m v : reads_back m 0 v = true ↔ v = m.
Proof.
  unfold reads_back. rewrite andb_false_r. change (2 ^ 0) with 1.
  destruct (Z.even m); rewrite andb_true_iff;
    rewrite ?Z.leb_le, ?Z.ltb_lt; lia.
Qed.

Lemma nearest_double_exact n : 0 < n < 2 ^ 53 → nearest_double n = (n, 0).
Proof.
  intros [Hpos Hlt]. unfold nearest_double.
  apply Z.log2_lt_pow2 in Hlt; [|done].
  by rewrite (proj2 (Z.leb_le _ _)) by lia.
Qed.

Lemma positive_to_string_exact n :
  0 < n < 2 ^ 53 → positive_to_string n = decimal n.
Proof.
  intros Hn. unfold positive_to_string. rewrite nearest_double_exact by done.
  change (972 <=? 0) with false. cbv iota beta zeta.
  change (2 ^ 0) with 1. rewrite Z.mul_1_r.
  pose proof (shortest_reads_back n 0 n (Z.to_nat (Z.log2 n) + 1)
                (10 ^ Z.of_nat (Z.to_nat (Z.log2 n) + 1))
                (proj2 (reads_back_exact n n) eq_refl)) as Hv.
  destruct (shortest n 0 n _ _) as [v p]. apply reads_back_exact in Hv.
  simpl in Hv. subst v.
  rewrite (proj2 (Z.ltb_lt _ _)); [done|].
  change (2 ^ 53) with 9007199254740992 in Hn.
  change (10 ^ 21) with 1000000000000000000000. lia.
Qed.

(** Up to [2^53] in absolute value, the string of a number is the decimal
    notation of the integer. *)
Lemma number_to_string_safe n :
  Z.abs n ≤ 2 ^ 53 → number_to_string n = NilZero.string_of_int (Z.to_int n).
Proof.
  intros Hn. destruct n as [|q|q]; [done| |].
  - destruct (decide (Z.pos q = 2 ^ 53)) as [->|Hne]; [by vm_compute|].
    unfold number_to_string. rewrite positive_to_string_exact; [done|lia].
  - destruct (decide (Z.pos q = 2 ^ 53)) as [Heq|Hne].
    + injection Heq as ->. by vm_compute.
    + unfold number_to_string. rewrite positive_to_string_exact; [done|lia].
Qed.
End NumberToString.

Example number_to_string_examples :
  number_to_string 3 = "3" ∧ number_to_string 120 = "120"
  ∧ number_to_string 0 = "0" ∧ number_to_string (-7) = "-7"
  ∧ number_to_string (2 ^ 53) = "9007199254740992"
  ∧ number_to_string (2 ^ 53 + 1) = "9007199254740992"
  ∧ number_to_string (2 ^ 60) = "1152921504606847000"
  ∧ number_to_string (2 ^ 64) = "18446744073709552000"
  ∧ number_to_string 123456789012345680000 = "123456789012345680000"
  ∧ number_to_string (10 ^ 21 - 1) = "1e+21"
  ∧ number_to_string (10 ^ 21) = "1e+21"
  ∧ number_to_string (- 10 ^ 21) = "-1e+21"
  ∧ number_to_string (2 ^ 70) = "1.1805916207174113e+21"
  ∧ number_to_string (10 ^ 23) = "1e+23".
Proof. repeat split; by vm_compute. Qed.

(** ** The demo service *)

(** C10: the demo [regenerateScenario] returns the [scenarioId] it was given
    and one scene per input scene, in order, with the input's id and
    description, [duration_sec] 4, the title [Scene <id>], the image
    [/demo/images/scene-<id>.png] and no video, where [<id>] is the id as a
    template literal prints it: in decimal notation for every id up to
    [2^53] in absolute value, and for instance [1e+21] for the id [10^21];
    so called on the pairs of a live collection, as both resync handlers do,
    it returns that collection's ids and descriptions in the same order. *)
Theorem demo_regenerateScenario_keeps_ids (scenarioId : string)
    (inputs : list SceneInput.t) (live : list Scene) (image : string) :
  let result := Demo.regenerateScenario scenarioId inputs image in
  let synced := Demo.regenerateScenario scenarioId (to_input <$> live) image in
  ScenarioResult.scenarioId result = scenarioId
  ∧ length (ScenarioResult.scenes result) = length inputs
  ∧ (∀ i input, inputs !! i = Some input →
       ScenarioResult.scenes result !! i
       = Some (SceneOutput.mk (SceneInput.id input)
                 (SceneInput.description input)
                 (Some ("/demo/images/scene-"
                        +:+ number_to_string (SceneInput.id input) +:+ ".png"))
                 None
                 (Some ("Scene " +:+ number_to_string (SceneInput.id input)))
                 4))
  ∧ (∀ i input, inputs !! i = Some input →
       Z.abs (SceneInput.id input) ≤ 2 ^ 53 →
       ScenarioResult.scenes result !! i
       = Some (SceneOutput.mk (SceneInput.id input)
                 (SceneInput.description input)
                 (Some ("/demo/images/scene-"
                        +:+ NilZero.string_of_int (Z.to_int (SceneInput.id input))
                        +:+ ".png"))
                 None
                 (Some ("Scene "
                        +:+ NilZero.string_of_int (Z.to_int (SceneInput.id input))))
                 4))
  ∧ ScenarioResult.scenes
      (Demo.regenerateScenario scenarioId
         [SceneInput.mk 12 "a"; SceneInput.mk (10 ^ 21) "b"] image)
    = [SceneOutput.mk 12 "a" (Some "/demo/images/scene-12.png") None
         (Some "Scene 12") 4;
       SceneOutput.mk (10 ^ 21) "b" (Some "/demo/images/scene-1e+21.png") None
         (Some "Scene 1e+21") 4]
  ∧ ids (ScenarioResult.scenes result) = SceneInput.id <$> inputs
  ∧ ScenarioResult.scenarioId synced = scenarioId
  ∧ ids (ScenarioResult.scenes synced) = ids live
  ∧ scene_description <$> ScenarioResult.scenes synced
    = scene_description <$> live.
Proof.
  cbv zeta. split; [done|]. split; [by apply length_fmap|].
  assert (Hat : ∀ i input, inputs !! i = Some input →
            ScenarioResult.scenes (Demo.regenerateScenario scenarioId inputs image)
              !! i = Some (Demo.regenerate_scene input)).
  { intros i input Hi. simpl. by rewrite list_lookup_fmap, Hi. }
  split; [|split; [|split; [|split; [|split; [done|split]]]]].
  - intros i input Hi. by rewrite (Hat i input Hi).
  - intros i input Hi Hsafe. rewrite (Hat i input Hi).
    unfold Demo.regenerate_scene. by rewrite number_to_string_safe.
  - by vm_compute.
  - unfold ids. simpl. by rewrite <- list_fmap_compose.
  - unfold ids. simpl. by rewrite <- !list_fmap_compose.
  - simpl. by rewrite <- !list_fmap_compose.
Qed.

Example demo_regenerateScenario_sample :
  Demo.regenerateScenario "s1" (to_input <$> sample_live) "/img/c.png"
  = ScenarioResult.mk "s1"
      [SceneOutput.mk 1 "A2" (Some "/demo/images/scene-1.png") None
         (Some "Scene 1") 4;
       SceneOutput.mk 2 "B" (Some "/demo/images/scene-2.png") None
         (Some "Scene 2") 4].
Proof. reflexivity. Qed.

(** ** Error normalisation of [requestJson] *)

Section RequestJsonErrors.
Context {number error : Type}.
Variable number_truthy : number → bool.
Variable JSON_parse : string → option (Http.JSON number).
Variable ToString : Http.JSON number → string.
Hypothesis ToString_string : ∀ s, ToString (Http.JString s) = s.

Implicit Types (res : Http.Response error) (v : option (Http.JSON number)).



Lemma parse_payload_empty : Http.parse_payload JSON_parse "" = Http.JNull.
Proof. reflexivity. Qed.



End RequestJsonErrors.



Example requestJson_fallbacks :
  (* a body that does not parse: the raw text *)
  Http.requestJson (error:=string) truthy_number (λ _, None) sample_ToString
    (Http.Fulfilled {| Http.ok := false; Http.status := 502;
                       Http.text := Http.Fulfilled "Bad Gateway" |})
  = Http.Thrown "API Error: Bad Gateway"
  (* an empty body: the status *)
  ∧ Http.requestJson (error:=string) truthy_number (λ _, None) sample_ToString
      (Http.Fulfilled {| Http.ok := false; Http.status := 500;
                         Http.text := Http.Fulfilled "" |})
    = Http.Thrown "API Error: HTTP 500"
  (* error.message wins over detail and message *)
  ∧ Http.requestJson (error:=string) truthy_number
      (λ _, Some (Http.JObject
                    [("message", Http.JString "m");
                     ("detail", Http.JString "d");
                     ("error", Http.JObject [("message", Http.JString "e")])]))
      sample_ToString
      (Http.Fulfilled {| Http.ok := false; Http.status := 400;
                         Http.text := Http.Fulfilled "(body)" |})
    = Http.Thrown "API Error: e"
  (* an empty detail is skipped *)
  ∧ Http.requestJson (error:=string) truthy_number
      (λ _, Some (Http.JObject
                    [("message", Http.JString "m"); ("detail", Http.JString "")]))
      sample_ToString
      (Http.Fulfilled {| Http.ok := false; Http.status := 400;
                         Http.text := Http.Fulfilled "(body)" |})
    = Http.Thrown "API Error: m"
  (* a response that is ok returns the parsed body, null when empty *)
  ∧ Http.requestJson (error:=string) truthy_number sample_parse sample_ToString
      (Http.Fulfilled {| Http.ok := true; Http.status := 204;
                         Http.text := Http.Fulfilled "" |})
    = Http.Returned Http.JNull
  (* the network is down: the rejection of fetch *)
  ∧ Http.requestJson truthy_number sample_parse sample_ToString
      (Http.Failed "TypeError: Failed to fetch")
    = Http.Escaped "TypeError: Failed to fetch".
Proof. repeat split; reflexivity. Qed.

(** ** The scenarios of the specification, run on the machine *)

(** Incremental sync of the edited sample: the returned scenes become the
    live collection and the baseline, nothing is dirty, and [onNext] runs
    after the flag is cleared. *)
Example scenario_incremental_sync :
  let run := exec [ClickGenerateVideo accept; Settle 0 (Resolved sample_result)]
               (idle sample_state) in
  scenes (state run.1) = ScenarioResult.scenes sample_result
  ∧ baselineScenesRef (state run.1) = ScenarioResult.scenes sample_result
  ∧ scenarioId (state run.1) = Some "s2"
  ∧ dirtyInfo_of (state run.1) = {| dirtyIds := []; dirtyCount := 0 |}
  ∧ run.2
    = [EvSetIsRegenerating true;
       EvRegenerate "s1" [SceneInput.mk 1 "A2"; SceneInput.mk 2 "B"] "/img/c.png";
       EvSetScenarioId "s2";
       EvSetScenes (ScenarioResult.scenes sample_result);
       EvWriteBaseline (ScenarioResult.scenes sample_result);
       EvSetIsRegenerating false;
       EvOnNext].
Proof. by vm_compute. Qed.

(** Full regenerate declined: one prompt, no call, no change. *)
Example scenario_regenerate_declined :
  dispatch (ClickRegenerateAll decline) (idle sample_state)
  = (idle sample_state, [EvConfirm msg_confirm_regenerate_all false]).
Proof. reflexivity. Qed.

(** Full regenerate accepted, then rejected by the service: the live
    collection stays reset to the baseline. *)
Example scenario_regenerate_rejected :
  let run := exec [ClickRegenerateAll accept; Settle 0 (Rejected "timeout")]
               (idle sample_state) in
  scenes (state run.1) = sample_baseline
  ∧ baselineScenesRef (state run.1) = sample_baseline
  ∧ scenarioId (state run.1) = Some "s1"
  ∧ isRegenerating (state run.1) = false
  ∧ inflight run.1 = [].
Proof. by vm_compute. Qed.

(** An edit saved while a sync is in flight survives a rejection and is
    overwritten by a resolution. *)
Example scenario_edit_during_sync :
  let editing := [ClickGenerateVideo accept; ClickEdit 1;
                  TypeDescription "B2"; ClickSave] in
  scenes (state (exec (editing ++ [Settle 0 (Rejected "timeout")])
                   (idle sample_state)).1)
  = [scene 1 "A2"; scene 2 "B2"]
  ∧ scenes (state (exec (editing ++ [Settle 0 (Resolved sample_result)])
                     (idle sample_state)).1)
    = [scene 1 "A2"; scene 2 "B"].
Proof. by vm_compute. Qed.

(** * Further properties of the code *)

(** ** The dirty computation: bounds, frame and badges *)

Section DirtyMore.
Implicit Types (live base : list Scene) (s : Scene) (i : Z) (st : State).

Lemma filter_ext_in {A} (P Q : A → Prop) `{!∀ x, Decision (P x)}
    `{!∀ x, Decision (Q x)} (l : list A) :
  (∀ x, x ∈ l → P x ↔ Q x) → filter P l = filter Q l.
Proof.
  induction l as [|x l IH]; intros Hiff; [done|].
  rewrite !filter_cons.
  assert (Hx : P x ↔ Q x) by (apply Hiff, list_elem_of_here).
  rewrite IH by (intros y Hy; apply Hiff; by right).
  destruct (decide (P x)), (decide (Q x)); tauto || done.
Qed.

Lemma dirtyInfo_eta live base :
  dirtyInfo live base
  = {| dirtyIds := dirtyIds (dirtyInfo live base);
       dirtyCount := length (dirtyIds (dirtyInfo live base)) |}.
Proof. reflexivity. Qed.

(** The dirty ids are ids of the live collection, in its order, and ids of
    the baseline; there are never more of them than live scenes; and with an
    empty baseline, or no live scene, nothing is dirty. *)
Theorem dirtyIds_within live base :
  dirtyIds (dirtyInfo live base) `sublist_of` ids live
  ∧ (∀ i, i ∈ dirtyIds (dirtyInfo live base) → i ∈ ids base)
  ∧ (dirtyCount (dirtyInfo live base) ≤ length live)%nat
  ∧ dirtyInfo live [] = {| dirtyIds := []; dirtyCount := 0 |}
  ∧ dirtyInfo [] base = {| dirtyIds := []; dirtyCount := 0 |}.
Proof.
  assert (Hsub : dirtyIds (dirtyInfo live base) `sublist_of` ids live).
  { rewrite dirtyIds_filter. unfold ids. apply fmap_sublist, sublist_filter. }
  split; [exact Hsub|]. split; [|split; [|split]].
  - intros i Hi. destruct (decide (i ∈ ids base)) as [|Hn]; [done|].
    by destruct (not_dirty_absent live base i Hn).
  - rewrite dirtyCount_length. apply sublist_length in Hsub.
    unfold ids in Hsub. by rewrite length_fmap in Hsub.
  - rewrite dirtyInfo_eta.
    assert (dirtyIds (dirtyInfo live []) = []) as ->; [|done].
    destruct (dirtyIds (dirtyInfo live [])) as [|i rest] eqn:Hd; [done|].
    destruct (not_dirty_absent live [] i); [apply not_elem_of_nil|].
    rewrite Hd. apply list_elem_of_here.
  - reflexivity.
Qed.

Lemma baseMap_fold_pairs base base' (m : gmap Z string) :
  to_input <$> base = to_input <$> base' →
  foldl (λ m s, <[scene_id s := scene_description s]> m) m base
  = foldl (λ m s, <[scene_id s := scene_description s]> m) m base'.
Proof.
  revert base' m. induction base as [|b base IH]; intros base' m Heq.
  - symmetry in Heq. apply fmap_nil_inv in Heq. by subst.
  - rewrite fmap_cons in Heq. symmetry in Heq.
    apply fmap_cons_inv in Heq as (b' & rest & Hb & Hrest & ->).
    simpl. injection Hb as -> ->. by apply IH.
Qed.

Lemma dirty_loop_pairs (bm : gmap Z string) live live' (acc : list Z) :
  to_input <$> live = to_input <$> live' →
  foldl (dirty_push bm) acc live = foldl (dirty_push bm) acc live'.
Proof.
  revert live' acc. induction live as [|s live IH]; intros live' acc Heq.
  - symmetry in Heq. apply fmap_nil_inv in Heq. by subst.
  - rewrite fmap_cons in Heq. symmetry in Heq.
    apply fmap_cons_inv in Heq as (s' & rest & Hs & Hrest & ->).
    simpl. injection Hs as Hid Hd.
    assert (dirty_push bm acc s = dirty_push bm acc s') as ->.
    { unfold dirty_push. by rewrite Hid, Hd. }
    by apply IH.
Qed.

(** The dirty information reads only the ids and the descriptions: two live
    collections, and two baselines, with the same (id, description) pairs
    give the same result, whatever their titles, media and durations. *)
Theorem dirtyInfo_reads_pairs_only live live' base base' :
  to_input <$> live = to_input <$> live' →
  to_input <$> base = to_input <$> base' →
  dirtyInfo live base = dirtyInfo live' base'.
Proof.
  intros Hl Hb. unfold dirtyInfo, baseMap.
  rewrite (baseMap_fold_pairs base base' ∅ Hb).
  by rewrite (dirty_loop_pairs _ live live' [] Hl).
Qed.

Lemma dirtyCount_zero_iff_no_badge st :
  dirtyCount (dirtyInfo_of st) = 0%nat
  ↔ ∀ s, s ∈ scenes st → isDirty st s = false.
Proof.
  unfold isDirty, dirtyInfo_of.
  rewrite dirtyCount_length, length_zero_iff_nil. split.
  - intros -> s _. apply bool_decide_eq_false, not_elem_of_nil.
  - intros Hnone. apply elem_of_nil_inv. intros i Hi.
    pose proof Hi as (s & Hs & <- & _)%elem_of_dirtyIds.
    specialize (Hnone s Hs). by apply bool_decide_eq_false in Hnone.
Qed.

(** The EDITED badge and the count agree, both read from the memoised
    [dirtyInfo]: every live scene the loop found changed, against the
    baseline the memo was computed with, carries the badge; no badge is
    shown exactly when the count is 0; and when the live ids are unique, the
    badge marks exactly the changed scenes and the number of badges is
    [dirtyCount]. *)
Theorem isDirty_badges st :
  (∀ s, s ∈ scenes st → is_dirty (baseMap (memo_baseline st)) s →
        isDirty st s = true)
  ∧ (dirtyCount (dirtyInfo_of st) = 0%nat
     ↔ ∀ s, s ∈ scenes st → isDirty st s = false)
  ∧ (NoDup (ids (scenes st)) →
     (∀ s, s ∈ scenes st →
        (isDirty st s = true ↔ is_dirty (baseMap (memo_baseline st)) s))
     ∧ length (filter (λ s, isDirty st s = true) (scenes st))
       = dirtyCount (dirtyInfo_of st)).
Proof.
  unfold isDirty, dirtyInfo_of.
  set (live := scenes st). set (base := memo_baseline st).
  assert (Hbadge : ∀ s, s ∈ live → is_dirty (baseMap base) s →
            bool_decide (scene_id s ∈ dirtyIds (dirtyInfo live base)) = true).
  { intros s Hs Hd. apply bool_decide_eq_true, elem_of_dirtyIds. eauto. }
  split; [exact Hbadge|]. split.
  - apply dirtyCount_zero_iff_no_badge.
  - intros Hnd.
    assert (Hiff : ∀ s, s ∈ live →
              (bool_decide (scene_id s ∈ dirtyIds (dirtyInfo live base)) = true
               ↔ is_dirty (baseMap base) s)).
    { intros s Hs. split; [|by apply Hbadge].
      intros (s' & Hs' & Hid & Hd)%bool_decide_eq_true%elem_of_dirtyIds.
      assert (s' = s) as ->; [|done].
      clear Hd Hbadge. unfold ids in Hnd. revert Hnd Hs Hs' Hid. clear.
      induction live as [|x l IH]; intros Hnd Hs Hs' Hid.
      - by apply elem_of_nil in Hs.
      - rewrite fmap_cons in Hnd. apply NoDup_cons in Hnd as [Hx Hnd].
        apply elem_of_cons in Hs as [-> | Hs];
          apply elem_of_cons in Hs' as [-> | Hs']; [done| | |by apply IH].
        + destruct Hx. apply list_elem_of_fmap. eauto.
        + destruct Hx. apply list_elem_of_fmap. eauto. }
    split; [exact Hiff|].
    rewrite (filter_ext_in _ (λ s, is_dirty (baseMap base) s) live)
      by exact Hiff.
    by rewrite dirtyCount_length, dirtyIds_filter, length_fmap.
Qed.
End DirtyMore.

(** ** Local edits *)

Section LocalEdits.
Implicit Types (st : State) (c : Component) (a : Action) (s : Scene).

(** The status badge reads READY TO RENDER exactly when no sync is running
    and no scene card carries the EDITED badge. *)
Theorem status_ready_iff_no_badge st :
  status_badge st = "READY TO RENDER"
  ↔ isRegenerating st = false ∧ ∀ s, s ∈ scenes st → isDirty st s = false.
Proof.
  rewrite <- dirtyCount_zero_iff_no_badge. unfold status_badge.
  destruct (isRegenerating st).
  - split; [|by intros [? _]]. by case_bool_decide.
  - case_bool_decide as Hd.
    + split; [done|]. intros [_ Hz]. lia.
    + split; [|done]. intros _. split; [done|lia].
Qed.

Lemma save_scene_id editing edited s :
  scene_id (save_scene editing edited s) = scene_id s.
Proof. unfold save_scene. by case_decide. Qed.

(** A local edit (open the editor, type, save, cancel) calls nothing but the
    setters of the live collection and of the editor: no remote call, no
    prompt, no alert, no advance.  It leaves the calls in flight, the flag,
    the baseline, the token and the character image as they are, and keeps
    the ids of the live collection in their order. *)
Theorem local_edit_frame a c :
  local_edit a →
  let edited := dispatch a c in
  inflight edited.1 = inflight c
  ∧ isRegenerating (state edited.1) = isRegenerating (state c)
  ∧ baselineScenesRef (state edited.1) = baselineScenesRef (state c)
  ∧ scenarioId (state edited.1) = scenarioId (state c)
  ∧ characterImageUrl (state edited.1) = characterImageUrl (state c)
  ∧ ids (scenes (state edited.1)) = ids (scenes (state c))
  ∧ Forall editor_event edited.2.
Proof.
  destruct c as [st ks]. destruct a; try done; intros _; cbv zeta;
    unfold dispatch; cbn [state inflight].
  - destruct (scenes st !! n) as [sc|]; [|by repeat split].
    case_decide; [by repeat split|]. unfold launch. frame.
    repeat split; try done. by repeat constructor.
  - unfold launch. frame. repeat split; try done. by repeat constructor.
  - unfold launch, handleSaveEdit. cbn [state inflight].
    destruct (editingSceneId st) as [editing|]; [|by frame; repeat split].
    destruct (truthy_number editing); frame; [|by repeat split].
    repeat split; try done; [|by repeat constructor].
    unfold ids. rewrite <- list_fmap_compose. apply list_fmap_ext.
    intros i s _. apply save_scene_id.
  - unfold launch. frame. repeat split; try done. by repeat constructor.
Qed.

(** Witness of the save with a non-zero id: the sample scenario, scene 1
    open with a new text. *)
Lemma handleSaveEdit_nonzero_witness :
  let st := set_editedDescription "A3" (set_editingSceneId (Some 1) sample_state) in
  editingSceneId st = Some 1 ∧ (1:Z) ≠ 0
  ∧ ∃ st', (run_sync decline (handleSaveEdit st) st).1.1 = st'
           ∧ ids (scenes st') = ids (scenes st)
           ∧ scenes st' !! 0%nat = Some (scene 1 "A3").
Proof.
  intros st. split; [reflexivity|]. split; [done|].
  destruct (handleSaveEdit_nonzero st decline 1 eq_refl ltac:(done))
    as (st' & Hrun & _ & _ & Hids & Hat & _).
  exists st'. split; [by rewrite Hrun|]. split; [exact Hids|].
  exact (Hat 0%nat (scene 1 "A2") eq_refl).
Defined.

Lemma with_description_roundtrip s v :
  SceneOutput.with_description (SceneOutput.with_description s v)
    (scene_description s) = s.
Proof. by destruct s. Qed.

Lemma NoDup_ids_inj (l : list Scene) s t :
  NoDup (ids l) → s ∈ l → t ∈ l → scene_id s = scene_id t → s = t.
Proof.
  unfold ids. induction l as [|x l IH]; intros Hnd Hs Ht Hid.
  - by apply elem_of_nil in Hs.
  - rewrite fmap_cons in Hnd. apply NoDup_cons in Hnd as [Hx Hnd].
    apply elem_of_cons in Hs as [-> | Hs];
      apply elem_of_cons in Ht as [-> | Ht]; [done| | |by apply IH].
    + destruct Hx. apply list_elem_of_fmap. eauto.
    + destruct Hx. apply list_elem_of_fmap. eauto.
Qed.

(** Opening a scene and saving at once, without typing, leaves the live
    collection as it is, provided the scenes that share the opened scene's id
    share its description (in particular with unique ids). *)
Theorem open_and_save_is_identity c n :
  editingSceneId (state c) = None →
  same_id_same_description (scenes (state c)) →
  let saved := exec [ClickEdit n; ClickSave] c in
  scenes (state saved.1) = scenes (state c)
  ∧ baselineScenesRef (state saved.1) = baselineScenesRef (state c)
  ∧ inflight saved.1 = inflight c.
Proof.
  destruct c as [st ks]. simpl. intros Hnone Hsame.
  rewrite Hnone. destruct (scenes st !! n) as [sc|] eqn:Hn; simpl.
  - unfold launch, handleSaveEdit. frame.
    destruct (truthy_number (scene_id sc)); frame; [|done].
    split; [|done]. rewrite <- (list_fmap_id (scenes st)) at 2.
    apply list_fmap_ext. intros i s Hi. unfold save_scene.
    case_decide as Hid; [|done]. simpl.
    assert (scene_description sc = scene_description s) as ->.
    { symmetry. apply Hsame; [by eapply list_elem_of_lookup_2..|done]. }
    by destruct s.
  - unfold launch, handleSaveEdit. frame. rewrite Hnone. by frame.
Qed.
End LocalEdits.

(** ** Editing a description and typing it back *)

Section EditRoundTrip.
Implicit Types (st : State) (c : Component) (s : Scene) (l : list Scene).

Lemma edit_type_save c n s v :
  editingSceneId (state c) = None →
  scenes (state c) !! n = Some s →
  scene_id s ≠ 0 →
  let saved := (exec [ClickEdit n; TypeDescription v; ClickSave] c).1 in
  scenes (state saved) = save_scene (scene_id s) v <$> scenes (state c)
  ∧ baselineScenesRef (state saved) = baselineScenesRef (state c)
  ∧ editingSceneId (state saved) = None
  ∧ inflight saved = inflight c
  ∧ memo_baseline (state saved) = baselineScenesRef (state c).
Proof.
  destruct c as [st ks]. simpl. intros Hnone Hn Hid.
  rewrite Hnone, Hn. simpl. unfold launch, handleSaveEdit. frame.
  unfold truthy_number. rewrite bool_decide_eq_true_2 by done. frame.
  repeat split; try done.
  rewrite render_memo_baseline. cbn -[render]. by frame.
Qed.

Lemma singleton_of_NoDup (l : list Z) (x : Z) :
  NoDup l → (∀ i, i ∈ l ↔ i = x) → l = [x].
Proof.
  intros Hnd Hin. destruct l as [|y l].
  - assert (Hx : x ∈ @nil Z) by (by apply Hin). by apply elem_of_nil in Hx.
  - assert (y = x) as -> by (apply Hin, list_elem_of_here).
    apply NoDup_cons in Hnd as [Hx _]. destruct l as [|z l]; [done|].
    assert (z = x) as -> by (apply Hin; right; apply list_elem_of_here).
    destruct Hx. apply list_elem_of_here.
Qed.

Lemma ids_save_scene l editing edited :
  ids (save_scene editing edited <$> l) = ids l.
Proof.
  unfold ids. rewrite <- list_fmap_compose. apply list_fmap_ext.
  intros i s _. apply save_scene_id.
Qed.

Lemma elem_of_dirtyIds_after_save l s v i :
  NoDup (ids l) → s ∈ l →
  i ∈ dirtyIds (dirtyInfo (save_scene (scene_id s) v <$> l) l)
  ↔ i = scene_id s ∧ v ≠ scene_description s.
Proof.
  intros Hnd Hs. rewrite elem_of_dirtyIds. split.
  - intros (x' & (x & -> & Hx)%list_elem_of_fmap & <- & Hd).
    apply is_dirty_Some in Hd as (d & Hl & Hne).
    rewrite save_scene_id in Hl.
    rewrite (baseMap_lookup_unique l x Hnd Hx) in Hl. injection Hl as <-.
    rewrite save_scene_id. unfold save_scene in Hne.
    case_decide as Hid; [|done].
    assert (x = s) as -> by (by apply (NoDup_ids_inj l)).
    split; [done|]. simpl in Hne. congruence.
  - intros [-> Hv]. exists (save_scene (scene_id s) v s).
    split; [apply list_elem_of_fmap; eauto|].
    split; [apply save_scene_id|]. apply is_dirty_Some.
    exists (scene_description s). rewrite save_scene_id.
    split; [by apply baseMap_lookup_unique|].
    rewrite save_scene_match by done. simpl. congruence.
Qed.

(** On a clean component whose live ids are unique and whose baseline is the
    live collection, saving a different text for a scene with a non-zero id
    makes that scene, and only it, dirty; saving the same text keeps the
    collection; and opening the scene again and typing the old description
    back restores the live collection, so that nothing is dirty any more. *)
Theorem edit_then_revert c n s v :
  NoDup (ids (scenes (state c))) →
  baselineScenesRef (state c) = scenes (state c) →
  editingSceneId (state c) = None →
  scenes (state c) !! n = Some s →
  scene_id s ≠ 0 →
  let saved := (exec [ClickEdit n; TypeDescription v; ClickSave] c).1 in
  let reverted :=
    (exec [ClickEdit n; TypeDescription (scene_description s); ClickSave]
       saved).1 in
  (v ≠ scene_description s →
   dirtyInfo_of (state saved)
   = {| dirtyIds := [scene_id s]; dirtyCount := 1 |})
  ∧ (v = scene_description s → scenes (state saved) = scenes (state c))
  ∧ scenes (state reverted) = scenes (state c)
  ∧ baselineScenesRef (state reverted) = scenes (state c)
  ∧ dirtyCount (dirtyInfo_of (state reverted)) = 0%nat.
Proof.
  intros Hnd Hbase Hnone Hn Hid saved reverted.
  destruct (edit_type_save c n s v Hnone Hn Hid) as (Hsc & Hb & He & _ & Hm).
  fold saved in Hsc, Hb, He, Hm.
  assert (Hs : s ∈ scenes (state c)) by (by eapply list_elem_of_lookup_2).
  assert (Hn' : scenes (state saved) !! n
                = Some (save_scene (scene_id s) v s)).
  { by rewrite Hsc, list_lookup_fmap, Hn. }
  assert (Hid' : scene_id (save_scene (scene_id s) v s) ≠ 0)
    by (by rewrite save_scene_id).
  destruct (edit_type_save saved n _ (scene_description s) He Hn' Hid')
    as (Hsc2 & Hb2 & _ & _ & Hm2).
  fold reverted in Hsc2, Hb2, Hm2.
  assert (Hback : scenes (state reverted) = scenes (state c)).
  { rewrite Hsc2, Hsc, save_scene_id, <- list_fmap_compose.
    rewrite <- (list_fmap_id (scenes (state c))) at 2.
    apply list_fmap_ext. intros i x Hx. simpl.
    destruct (decide (scene_id x = scene_id s)) as [Hx1|Hx1].
    - rewrite (save_scene_match _ v x Hx1), save_scene_match by done.
      assert (x = s) as ->.
      { apply (NoDup_ids_inj (scenes (state c))); try done.
        by eapply list_elem_of_lookup_2. }
      apply with_description_roundtrip.
    - rewrite (save_scene_other _ v x Hx1). by rewrite save_scene_other. }
  split; [|split; [|split; [done|split]]].
  - intros Hv. unfold dirtyInfo_of. rewrite Hm, Hbase, Hsc, dirtyInfo_eta.
    assert (dirtyIds (dirtyInfo (save_scene (scene_id s) v <$> scenes (state c))
                        (scenes (state c))) = [scene_id s]) as ->; [|done].
    apply singleton_of_NoDup.
    + apply dirtyIds_NoDup. by rewrite ids_save_scene.
    + intros i. rewrite elem_of_dirtyIds_after_save by done. tauto.
  - intros ->. rewrite Hsc. rewrite <- (list_fmap_id (scenes (state c))) at 2.
    apply list_fmap_ext. intros i x Hx. simpl. unfold save_scene.
    case_decide as Hx1; [|done].
    assert (x = s) as ->.
    { apply (NoDup_ids_inj (scenes (state c))); try done.
      by eapply list_elem_of_lookup_2. }
    by destruct s.
  - by rewrite Hb2, Hb.
  - unfold dirtyInfo_of. rewrite Hm2, Hb, Hbase, Hback.
    by apply dirtyInfo_self, NoDup_ids_same_description.
Qed.

(** Witness: scene 1 of the unedited sample, edited to [A2] and back. *)
Lemma edit_then_revert_witness :
  let c := idle (set_scenes sample_baseline sample_state) in
  NoDup (ids (scenes (state c)))
  ∧ scenes (state c) !! 0%nat = Some (scene 1 "A")
  ∧ dirtyInfo_of
      (state (exec [ClickEdit 0; TypeDescription "A2"; ClickSave] c).1)
    = {| dirtyIds := [1]; dirtyCount := 1 |}.
Proof.
  intros c. assert (Hnd : NoDup (ids (scenes (state c)))) by compute_done.
  split; [exact Hnd|]. split; [reflexivity|].
  apply (edit_then_revert c 0 (scene 1 "A") "A2" Hnd eq_refl eq_refl eq_refl);
    done.
Defined.
End EditRoundTrip.

(** ** When the two handlers call the service *)

Section CallConditions.
Implicit Types (st : State) (confirm : string → bool).

(** The advance handler issues its remote call exactly when the
    [scenarioId] is non-empty, no edit is open or the user agrees to drop it,
    and some scene is dirty.  The call then carries the token and the (id,
    description) pairs of the whole live collection, in order, not only the
    dirty ones.  Without a token the handler only alerts. *)
Theorem generateVideo_calls_iff st confirm :
  let run := run_sync confirm (handleGenerateVideoClick st) st in
  ((∃ k, run.2 = Suspended k)
   ↔ is_Some (truthy_scenarioId st)
     ∧ (editingSceneId st = None ∨ confirm msg_confirm_discard_edit = true)
     ∧ (0 < dirtyCount (dirtyInfo_of st))%nat)
  ∧ (∀ k, run.2 = Suspended k →
       k = generateVideo_settled
       ∧ ∃ pre sid,
           truthy_scenarioId st = Some sid
           ∧ run.1.2
             = pre ++ [EvRegenerate sid (to_input <$> scenes st)
                         (characterImageUrl st)])
  ∧ (truthy_scenarioId st = None →
     run = (st, [EvAlert msg_no_scenarioId], Finished)).
Proof.
  cbv zeta. destruct (truthy_scenarioId st) as [sid|] eqn:Hsid.
  2:{ rewrite run_handleGenerateVideoClick_no_scenario by done. cbn [fst snd].
      split; [|done]. split; [by intros [k ?] | by intros [[? [=]] _]]. }
  assert (Hguard : is_Some (edit_guard confirm st)
            ↔ editingSceneId st = None
              ∨ confirm msg_confirm_discard_edit = true).
  { unfold edit_guard. destruct (editingSceneId st).
    - destruct (confirm msg_confirm_discard_edit); split;
        try (by intros [? [=]]); try (by eauto); by intros [|].
    - split; eauto. }
  destruct (edit_guard confirm st) as [[st0 evs0]|] eqn:Hg.
  2:{ rewrite (run_handleGenerateVideoClick_declined _ _ sid) by done. cbn [fst snd].
      split; [|done]. split; [by intros [k ?]|].
      intros (_ & Hok & _). apply Hguard in Hok. by destruct Hok. }
  rewrite (run_handleGenerateVideoClick_guarded _ _ sid st0 evs0) by done.
  destruct (decide (dirtyCount (dirtyInfo_of st) = 0%nat)) as [Hz|Hnz].
  - rewrite run_generateVideo_sync_clean by done. cbn [fst snd].
    split; [|done]. split; [by intros [k ?] | lia].
  - rewrite run_generateVideo_sync_dirty by lia. cbn [fst snd]. split; [|split; [|done]].
    + split; [|by eauto]. intros _. split; [by eauto|].
      split; [by apply Hguard | lia].
    + intros k [= <-]. split; [done|].
      exists (evs0 ++ [EvSetIsRegenerating true]), sid.
      split; [done|]. by rewrite <- app_assoc.
Qed.

(** REGENERATE ALL issues its remote call exactly when the [scenarioId] is
    non-empty and the user confirms.  Otherwise it changes nothing, and
    without a token it does not even prompt.  Its synchronous part never
    alerts and never advances. *)
Theorem regenerateAll_calls_iff st confirm :
  let run := run_sync confirm (handleRegenerateAll st) st in
  ((∃ k, run.2 = Suspended k)
   ↔ is_Some (truthy_scenarioId st)
     ∧ confirm msg_confirm_regenerate_all = true)
  ∧ (run.2 = Finished → run.1.1 = st)
  ∧ (truthy_scenarioId st = None → run.1.2 = [])
  ∧ (EvOnNext ∉ run.1.2)
  ∧ (∀ msg, EvAlert msg ∉ run.1.2).
Proof.
  cbv zeta. destruct (truthy_scenarioId st) as [sid|] eqn:Hsid.
  2:{ rewrite run_handleRegenerateAll_no_scenario by done. cbn [fst snd].
      split; [|split; [|split; [|split]]]; try done.
      - split; [by intros [k ?] | by intros [[? [=]] _]].
      - apply not_elem_of_nil.
      - intros msg. apply not_elem_of_nil. }
  destruct (confirm msg_confirm_regenerate_all) eqn:Hc.
  - rewrite (run_handleRegenerateAll_accepted _ _ sid) by done. cbn [fst snd].
    split; [|split; [|split; [|split]]]; try done.
    + split; [by eauto | by eauto].
    + set_solver.
    + intros msg. set_solver.
  - rewrite (run_handleRegenerateAll_declined _ _ sid) by done. cbn [fst snd].
    split; [|split; [|split; [|split]]]; try done.
    + split; [by intros [k ?] | by intros [_ ?]].
    + set_solver.
    + intros msg. set_solver.
Qed.
End CallConditions.

(** ** Calls and advances on the component machine *)

Section MachineMore.
Implicit Types (st : State) (c : Component) (a : Action).

(** A resync click either issues no call, and then advances only from the
    advance button on a clean scenario, or issues one call, whose pairs are
    those of the live collection the component shows from then on. *)
Lemma dispatch_resync_click_cases a c :
  resync_click a →
  let r := dispatch a c in
  (inflight r.1 = inflight c
   ∧ (∀ sid inputs image, EvRegenerate sid inputs image ∉ r.2)
   ∧ (EvOnNext ∈ r.2 →
      (∃ confirm, a = ClickGenerateVideo confirm)
      ∧ dirtyCount (dirtyInfo_of (state c)) = 0%nat
      ∧ isRegenerating (state c) = false
      ∧ is_Some (truthy_scenarioId (state c))
      ∧ scenes (state r.1) = scenes (state c)
      ∧ baselineScenesRef (state r.1) = baselineScenesRef (state c)))
  ∨ (∃ k pre sid,
       inflight r.1 = inflight c ++ [k]
       ∧ resync_continuation k
       ∧ (k = generateVideo_settled ↔ ∃ confirm, a = ClickGenerateVideo confirm)
       ∧ r.2 = pre ++ [EvRegenerate sid (to_input <$> scenes (state r.1))
                         (characterImageUrl (state c))]
       ∧ truthy_scenarioId (state c) = Some sid
       ∧ isRegenerating (state c) = false
       ∧ isRegenerating (state r.1) = true
       ∧ baselineScenesRef (state r.1) = baselineScenesRef (state c)
       ∧ (EvOnNext ∉ pre)
       ∧ ∀ sid' inputs image, EvRegenerate sid' inputs image ∉ pre).
Proof.
  intros Ha. destruct a; try done; clear Ha; cbv zeta; unfold dispatch.
  - unfold isRegenAllDisabled.
    destruct (isRegenerating (state c)) eqn:Hf; cbn [orb fst snd].
    { left. split; [done|]. split; [intros ???|]; set_solver. }
    destruct (truthy_scenarioId (state c)) as [sid|] eqn:Hsid; cbn.
    2:{ left. split; [done|]. split; [intros ???|]; set_solver. }
    unfold launch. destruct (confirm msg_confirm_regenerate_all) eqn:Hc.
    + rewrite (run_handleRegenerateAll_accepted _ _ sid) by done.
      frame. right.
      exists regenerateAll_settled, [EvConfirm msg_confirm_regenerate_all true;
        EvSetIsRegenerating true;
        EvSetScenes (regenerate_base (baselineScenesRef (state c))
                       (scenes (state c)))], sid.
      split; [done|]. split; [by left|]. split.
      { split; [|by intros [? [=]]]. intros Heq.
        by apply (f_equal (λ k, k (Rejected ""))) in Heq. }
      repeat split; try done; [set_solver|]. intros ???. set_solver.
    + rewrite (run_handleRegenerateAll_declined _ _ sid) by done.
      frame. left.
      split; [done|]. split; [intros ???|]; set_solver.
  - destruct (isRegenerating (state c)) eqn:Hf; cbn [fst snd].
    { left. split; [done|]. split; [intros ???|]; set_solver. }
    unfold launch.
    destruct (truthy_scenarioId (state c)) as [sid|] eqn:Hsid.
    2:{ rewrite run_handleGenerateVideoClick_no_scenario by done.
        frame. left.
        split; [done|]. split; [intros ???|]; set_solver. }
    destruct (edit_guard confirm (state c)) as [[st0 evs0]|] eqn:Hg.
    2:{ rewrite (run_handleGenerateVideoClick_declined _ _ sid) by done.
        frame. left.
        split; [done|]. split; [intros ???|]; set_solver. }
    rewrite (run_handleGenerateVideoClick_guarded _ _ sid st0 evs0) by done.
    assert (Hst0 : scenes st0 = scenes (state c)
                   ∧ baselineScenesRef st0 = baselineScenesRef (state c)
                   ∧ (EvOnNext ∉ evs0)
                   ∧ ∀ sid' inputs image, EvRegenerate sid' inputs image ∉ evs0).
    { unfold edit_guard in Hg. destruct (editingSceneId (state c)).
      - destruct (confirm msg_confirm_discard_edit); [|done].
        injection Hg as <- <-. repeat split; [set_solver|]. intros ???. set_solver.
      - injection Hg as <- <-. repeat split; [set_solver|]. intros ???. set_solver. }
    destruct Hst0 as (Hs0 & Hb0 & Hn0 & Hr0).
    destruct (decide (dirtyCount (dirtyInfo_of (state c)) = 0%nat)) as [Hz|Hnz].
    + rewrite run_generateVideo_sync_clean by done.
      frame. left. split; [done|]. split.
      * intros ??? [? | ?%list_elem_of_singleton]%elem_of_app; [|done].
        by eapply Hr0.
      * intros _. repeat split; eauto.
    + rewrite run_generateVideo_sync_dirty by lia.
      frame. right.
      exists generateVideo_settled, (evs0 ++ [EvSetIsRegenerating true]), sid.
      split; [done|]. split; [by right|]. split; [split; eauto|].
      split; [by rewrite <- app_assoc; cbn; rewrite Hs0|].
      repeat split; try done.
      * intros [? | ?%list_elem_of_singleton]%elem_of_app; done.
      * intros ??? [? | ?%list_elem_of_singleton]%elem_of_app; [|done].
        by eapply Hr0.
Qed.

Lemma local_edit_events a c :
  local_edit a → Forall editor_event (dispatch a c).2.
Proof.
  destruct c as [st ks]. destruct a; try done; intros _; simpl.
  - destruct (scenes st !! n) as [sc|]; [|done].
    case_decide; [done|]. by repeat constructor.
  - by repeat constructor.
  - unfold launch, handleSaveEdit. frame.
    destruct (editingSceneId st) as [editing|]; [|done].
    destruct (truthy_number editing); frame; by repeat constructor.
  - by repeat constructor.
Qed.

(** Whenever a click on a resync button issues a remote call, the call
    carries the (id, description) pairs of the live collection as the
    component shows it while the call is in flight (for REGENERATE ALL, the
    source the live collection was just reset to), the character image and
    the non-empty token; the flag was clear before and is set after. *)
Theorem issued_call_shows_live a c pre sid inputs image :
  resync_click a →
  (dispatch a c).2 = pre ++ [EvRegenerate sid inputs image] →
  inputs = to_input <$> scenes (state (dispatch a c).1)
  ∧ image = characterImageUrl (state c)
  ∧ truthy_scenarioId (state c) = Some sid
  ∧ isRegenerating (state c) = false
  ∧ isRegenerating (state (dispatch a c).1) = true
  ∧ baselineScenesRef (state (dispatch a c).1) = baselineScenesRef (state c).
Proof.
  intros Ha Hev.
  destruct (dispatch_resync_click_cases a c Ha)
    as [(_ & Hnone & _)
       | (k & pre' & sid' & _ & _ & _ & Hev' & Hsid & Hf & Hf' & Hb & _)].
  - destruct (Hnone sid inputs image). rewrite Hev.
    apply elem_of_app. right. apply list_elem_of_here.
  - rewrite Hev in Hev'. apply app_inj_tail in Hev' as [_ [= -> -> ->]].
    done.
Qed.

(** Witness: REGENERATE ALL on the edited sample sends the baseline's
    descriptions, which the live collection then shows. *)
Lemma issued_call_shows_live_witness :
  (dispatch (ClickRegenerateAll accept) (idle sample_state)).2
  = [EvConfirm msg_confirm_regenerate_all true; EvSetIsRegenerating true;
     EvSetScenes sample_baseline]
    ++ [EvRegenerate "s1" [SceneInput.mk 1 "A"; SceneInput.mk 2 "B"]
          "/img/c.png"]
  ∧ [SceneInput.mk 1 "A"; SceneInput.mk 2 "B"]
    = to_input
      <$> scenes (state (dispatch (ClickRegenerateAll accept)
                           (idle sample_state)).1).
Proof.
  assert (Hev : (dispatch (ClickRegenerateAll accept) (idle sample_state)).2
    = [EvConfirm msg_confirm_regenerate_all true; EvSetIsRegenerating true;
       EvSetScenes sample_baseline]
      ++ [EvRegenerate "s1" [SceneInput.mk 1 "A"; SceneInput.mk 2 "B"]
            "/img/c.png"]) by reflexivity.
  split; [exact Hev|].
  exact (proj1 (issued_call_shows_live (ClickRegenerateAll accept)
                  (idle sample_state) _ "s1" _ "/img/c.png" I Hev)).
Defined.

(** The component advances to the next stage only in two ways: a click on
    the advance button while nothing is dirty, the flag is clear and the
    token is non-empty, which changes neither collection; or the settling of
    an incremental sync that resolved, after which the live collection and
    the baseline are both the returned scenes.  A rejected call, a full
    regenerate, an edit or the baseline effect never advance. *)
Theorem onNext_gated a c :
  reachable c →
  EvOnNext ∈ (dispatch a c).2 →
  ((∃ confirm, a = ClickGenerateVideo confirm)
   ∧ dirtyCount (dirtyInfo_of (state c)) = 0%nat
   ∧ isRegenerating (state c) = false
   ∧ is_Some (truthy_scenarioId (state c))
   ∧ scenes (state (dispatch a c).1) = scenes (state c)
   ∧ baselineScenesRef (state (dispatch a c).1) = baselineScenesRef (state c))
  ∨ (∃ n result,
       a = Settle n (Resolved result)
       ∧ inflight c !! n = Some generateVideo_settled
       ∧ scenes (state (dispatch a c).1) = ScenarioResult.scenes result
       ∧ baselineScenesRef (state (dispatch a c).1)
         = ScenarioResult.scenes result
       ∧ inflight (dispatch a c).1 = []).
Proof.
  intros Hreach Hnext.
  pose proof (reachable_flag_tracks_inflight c Hreach) as Hinv.
  assert (Hclick : resync_click a → _) by
    (intros Ha; exact (dispatch_resync_click_cases a c Ha)).
  assert (Hlocal : local_edit a → False).
  { intros Ha. pose proof (local_edit_events a c Ha) as Hev.
    rewrite Forall_forall in Hev. by apply (Hev EvOnNext). }
  destruct a; try (by destruct Hlocal).
  - destruct (Hclick I) as [(_ & _ & Hadv) | (k & pre & sid & _ & _ & _ & Hev & _ & _ & _ & _ & Hn & _)].
    + left. by apply Hadv.
    + rewrite Hev in Hnext.
      apply elem_of_app in Hnext as [? | ?%list_elem_of_singleton]; done.
  - destruct (Hclick I) as [(_ & _ & Hadv) | (k & pre & sid & _ & _ & _ & Hev & _ & _ & _ & _ & Hn & _)].
    + left. by apply Hadv.
    + rewrite Hev in Hnext.
      apply elem_of_app in Hnext as [? | ?%list_elem_of_singleton]; done.
  - simpl in Hnext. by apply elem_of_nil in Hnext.
  - right. revert Hnext. unfold dispatch.
    destruct Hinv as [[Hk Hf] | (k & Hk & Hres & Hf)]; rewrite Hk.
    { simpl. by intros ?%elem_of_nil. }
    destruct n as [|n]; [|simpl; by intros ?%elem_of_nil].
    simpl. unfold launch.
    destruct Hres as [-> | ->]; destruct r as [result|error]; simpl;
      intros Hnext; set_solver.
Qed.

(** Witness: the resolved incremental sync of the sample advances. *)
Lemma onNext_gated_witness :
  reachable sample_syncing
  ∧ EvOnNext ∈ (dispatch (Settle 0 (Resolved sample_result)) sample_syncing).2
  ∧ ((∃ confirm, Settle 0 (Resolved sample_result) = ClickGenerateVideo confirm)
     ∧ dirtyCount (dirtyInfo_of (state sample_syncing)) = 0%nat
     ∧ isRegenerating (state sample_syncing) = false
     ∧ is_Some (truthy_scenarioId (state sample_syncing))
     ∧ scenes (state (dispatch (Settle 0 (Resolved sample_result))
                        sample_syncing).1)
       = scenes (state sample_syncing)
     ∧ baselineScenesRef (state (dispatch (Settle 0 (Resolved sample_result))
                                   sample_syncing).1)
       = baselineScenesRef (state sample_syncing)
     ∨ ∃ n result,
         Settle 0 (Resolved sample_result) = Settle n (Resolved result)
         ∧ inflight sample_syncing !! n = Some generateVideo_settled
         ∧ scenes (state (dispatch (Settle 0 (Resolved sample_result))
                            sample_syncing).1)
           = ScenarioResult.scenes result
         ∧ baselineScenesRef (state (dispatch (Settle 0 (Resolved sample_result))
                                       sample_syncing).1)
           = ScenarioResult.scenes result
         ∧ inflight (dispatch (Settle 0 (Resolved sample_result))
                       sample_syncing).1 = []).
Proof.
  assert (Hr : reachable sample_syncing).
  { apply reachable_dispatch, (reachable_mount sample_state). reflexivity. }
  assert (Hn : EvOnNext
               ∈ (dispatch (Settle 0 (Resolved sample_result)) sample_syncing).2).
  { vm_compute. do 4 apply list_elem_of_further. apply list_elem_of_here. }
  split; [exact Hr|]. split; [exact Hn|].
  exact (onNext_gated (Settle 0 (Resolved sample_result)) sample_syncing Hr Hn).
Defined.
End MachineMore.

(** ** Screen2 on the demo service *)

Section DemoSync.
Implicit Types (st : State) (c : Component) (a : Action) (l : list Scene).

Lemma demo_regenerate_pairs (inputs : list SceneInput.t) :
  to_input <$> (Demo.regenerate_scene <$> inputs) = inputs.
Proof.
  rewrite <- list_fmap_compose. rewrite <- (list_fmap_id inputs) at 2.
  apply list_fmap_ext. intros i [??] _. reflexivity.
Qed.

Lemma same_id_same_description_pairs l l' :
  to_input <$> l = to_input <$> l' →
  same_id_same_description l → same_id_same_description l'.
Proof.
  intros Heq Hsame s t Hs Ht Hid.
  assert (Hfind : ∀ x, x ∈ l' → ∃ y, y ∈ l ∧ to_input y = to_input x).
  { intros x Hx.
    assert (Hin : to_input x ∈ to_input <$> l).
    { rewrite Heq. apply list_elem_of_fmap. eauto. }
    apply list_elem_of_fmap in Hin as (y & Hy & Hyl). eauto. }
  destruct (Hfind s Hs) as (s0 & Hs0 & [= Hsi Hsd]).
  destruct (Hfind t Ht) as (t0 & Ht0 & [= Hti Htd]).
  rewrite <- Hsd, <- Htd. apply Hsame; congruence.
Qed.

(** With the demo service answering, a resync started from an idle component
    gives back the collection it was sent: the adopted live collection has
    the ids and the descriptions of the one shown during the call, in order,
    the baseline equals it, the token is the one sent, the component is idle
    again, and nothing is dirty when the scenes sharing an id share their
    description. *)
Theorem demo_sync_keeps_identity a c pre sid inputs image :
  resync_click a → inflight c = [] →
  (dispatch a c).2 = pre ++ [EvRegenerate sid inputs image] →
  let started := (dispatch a c).1 in
  let settled :=
    (dispatch (Settle 0 (Resolved (Demo.regenerateScenario sid inputs image)))
       started).1 in
  ids (scenes (state settled)) = ids (scenes (state started))
  ∧ scene_description <$> scenes (state settled)
    = scene_description <$> scenes (state started)
  ∧ baselineScenesRef (state settled) = scenes (state settled)
  ∧ scenarioId (state settled) = Some sid
  ∧ isRegenerating (state settled) = false
  ∧ inflight settled = []
  ∧ (same_id_same_description (scenes (state started)) →
     dirtyCount (dirtyInfo_of (state settled)) = 0%nat).
Proof.
  intros Ha Hidle Hev. cbv zeta.
  destruct (dispatch_resync_click_cases a c Ha)
    as [(_ & Hnone & _)
       | (k & pre' & sid' & Hk & Hres & _ & Hev' & _)].
  { destruct (Hnone sid inputs image). rewrite Hev.
    apply elem_of_app. right. apply list_elem_of_here. }
  rewrite Hev in Hev'. apply app_inj_tail in Hev' as [_ [= _ Hin _]].
  rewrite Hidle in Hk. simpl in Hk.
  set (started := (dispatch a c).1) in *.
  assert (Hadopt :
    scenes (state (dispatch (Settle 0 (Resolved
              (Demo.regenerateScenario sid inputs image))) started).1)
    = Demo.regenerate_scene <$> inputs
    ∧ baselineScenesRef (state (dispatch (Settle 0 (Resolved
              (Demo.regenerateScenario sid inputs image))) started).1)
      = Demo.regenerate_scene <$> inputs
    ∧ scenarioId (state (dispatch (Settle 0 (Resolved
              (Demo.regenerateScenario sid inputs image))) started).1)
      = Some sid
    ∧ isRegenerating (state (dispatch (Settle 0 (Resolved
              (Demo.regenerateScenario sid inputs image))) started).1)
      = false
    ∧ inflight (dispatch (Settle 0 (Resolved
              (Demo.regenerateScenario sid inputs image))) started).1 = []).
  { unfold dispatch. rewrite Hk. simpl. unfold launch.
    by destruct Hres as [-> | ->]. }
  assert (Hmemo :
    memo_baseline (state (dispatch (Settle 0 (Resolved
              (Demo.regenerateScenario sid inputs image))) started).1)
    = Demo.regenerate_scene <$> inputs).
  { unfold dispatch. rewrite Hk. simpl. unfold launch.
    by destruct Hres as [-> | ->]. }
  destruct Hadopt as (Hs & Hb & Hi & Hf & Hq).
  unfold dirtyInfo_of. rewrite Hmemo, Hs, Hb, Hi, Hf, Hq.
  assert (Hpairs : to_input <$> (Demo.regenerate_scene <$> inputs)
                   = to_input <$> scenes (state started)).
  { by rewrite demo_regenerate_pairs. }
  split; [|split; [|repeat split; try done]].
  - unfold ids.
    change scene_id with (SceneInput.id ∘ to_input).
    by rewrite !list_fmap_compose, Hpairs.
  - change scene_description with (SceneInput.description ∘ to_input).
    by rewrite !list_fmap_compose, Hpairs.
  - intros Hsame. apply dirtyInfo_self.
    by apply (same_id_same_description_pairs (scenes (state started))).
Qed.

(** Witness: the edited sample, synced by the demo service. *)
Lemma demo_sync_keeps_identity_witness :
  (dispatch (ClickGenerateVideo accept) (idle sample_state)).2
  = [EvSetIsRegenerating true]
    ++ [EvRegenerate "s1" [SceneInput.mk 1 "A2"; SceneInput.mk 2 "B"]
          "/img/c.png"]
  ∧ ids (scenes (state (dispatch (Settle 0 (Resolved
           (Demo.regenerateScenario "s1"
              [SceneInput.mk 1 "A2"; SceneInput.mk 2 "B"] "/img/c.png")))
           (dispatch (ClickGenerateVideo accept) (idle sample_state)).1).1))
    = ids (scenes (state (dispatch (ClickGenerateVideo accept)
                            (idle sample_state)).1)).
Proof.
  assert (Hev : (dispatch (ClickGenerateVideo accept) (idle sample_state)).2
    = [EvSetIsRegenerating true]
      ++ [EvRegenerate "s1" [SceneInput.mk 1 "A2"; SceneInput.mk 2 "B"]
            "/img/c.png"]) by reflexivity.
  split; [exact Hev|].
  exact (proj1 (demo_sync_keeps_identity (ClickGenerateVideo accept)
                  (idle sample_state) _ "s1" _ "/img/c.png" I eq_refl Hev)).
Defined.

(** The baseline effect is idempotent and writes nothing but the ref: the
    live collection is as before and the memo is the one of the render, so
    the component shows the same dirty information after the effect as
    before it.  When the effect captures, the baseline becomes the live
    collection, and both are then one array; a memo computed against the
    baseline of before, which was empty, counts nothing dirty, before and
    after, whatever the ids.  Computed again against the captured baseline,
    the count would be 0 exactly when the scenes sharing an id share their
    description. *)
Theorem baselineEffect_idempotent st :
  baselineEffect (baselineEffect st) = baselineEffect st
  ∧ scenes (baselineEffect st) = scenes st
  ∧ memoBase (baselineEffect st) = memoBase (render st)
  ∧ dirtyInfo_of (baselineEffect st) = dirtyInfo_of st
  ∧ (capture_fires st = true →
     baselineScenesRef (baselineEffect st) = scenes st
     ∧ aliased (baselineEffect st) = true
     ∧ (memo_baseline st = baselineScenesRef st →
        dirtyCount (dirtyInfo_of st) = 0%nat
        ∧ dirtyCount (dirtyInfo_of (baselineEffect st)) = 0%nat)
     ∧ (dirtyCount (dirtyInfo (scenes (baselineEffect st))
                      (baselineScenesRef (baselineEffect st))) = 0%nat
        ↔ same_id_same_description (scenes st))).
Proof.
  assert (Hempty : ∀ l, dirtyCount (dirtyInfo l []) = 0%nat).
  { intros l. rewrite dirtyCount_length.
    destruct (dirtyIds (dirtyInfo l [])) as [|i rest] eqn:Hd; [done|].
    destruct (not_dirty_absent l [] i); [apply not_elem_of_nil|].
    rewrite Hd. apply list_elem_of_here. }
  assert (Hmemo : memo_baseline (baselineEffect st) = memo_baseline st).
  { rewrite <- (render_memo_baseline st). unfold baselineEffect.
    destruct (capture_fires st); [|done].
    destruct (render_is_rendered st) as [base Hbase].
    unfold memo_baseline. cbn [memoBase set_aliased set_baselineScenesRef].
    by rewrite Hbase. }
  assert (Hscenes : scenes (baselineEffect st) = scenes st).
  { unfold baselineEffect. by destruct (capture_fires st); frame. }
  split; [|split; [done|split; [|split]]].
  - unfold baselineEffect at 1.
    rewrite (capture_fires_captured _ (baselineEffect_captured st)).
    apply render_rendered. unfold baselineEffect.
    destruct (capture_fires st); apply (render_is_rendered st).
  - unfold baselineEffect. by destruct (capture_fires st).
  - unfold dirtyInfo_of. by rewrite Hmemo, Hscenes.
  - intros Hf. pose proof Hf as [He _]%capture_fires_spec.
    split; [|split; [|split]].
    + unfold baselineEffect. rewrite Hf. by frame.
    + unfold baselineEffect. by rewrite Hf.
    + intros Hm. unfold dirtyInfo_of. rewrite Hmemo, Hscenes, Hm, He.
      by split.
    + rewrite Hscenes. unfold baselineEffect. rewrite Hf. frame.
      apply dirtyInfo_self.
Qed.

(** Witness: the freshly mounted sample component; the effect captures the
    two scenes and the rendered count stays 0. *)
Lemma baselineEffect_idempotent_witness :
  capture_fires fresh_state = true
  ∧ memo_baseline fresh_state = baselineScenesRef fresh_state
  ∧ baselineScenesRef (baselineEffect fresh_state) = sample_baseline
  ∧ dirtyCount (dirtyInfo_of (baselineEffect fresh_state)) = 0%nat.
Proof.
  destruct (baselineEffect_idempotent fresh_state)
    as (_ & _ & _ & _ & Hcap).
  destruct (Hcap eq_refl) as (Hb & _ & Hm & _).
  split; [reflexivity|]. split; [reflexivity|].
  split; [exact Hb | exact (proj2 (Hm eq_refl))].
Defined.

(** The memo is not computed again when the effect writes the ref.  A
    freshly mounted component that received two scenes of id 1 with
    different descriptions (outside the data model) captures them; the
    count it holds stays 0, where a computation against the captured
    baseline gives 1, and the advance button advances without a call. *)
Example memo_survives_capture :
  let received := set_scenes [scene 1 "A"; scene 1 "B"] fresh_state in
  let captured := (dispatch RunBaselineEffect (idle received)).1 in
  dirtyCount (dirtyInfo_of (state captured)) = 0%nat
  ∧ dirtyCount (dirtyInfo (scenes (state captured))
                  (baselineScenesRef (state captured))) = 1%nat
  ∧ (dispatch (ClickGenerateVideo accept) captured).2 = [EvOnNext].
Proof. by vm_compute. Qed.
End DemoSync.

(** ** The demo service: generation, regeneration and videos *)

Section DemoServiceFacts.

(** Whatever the brief and the clock, the demo scenario has the three scenes
    1, 2, 3, which regenerating leaves exactly as they are (ids,
    descriptions, titles, images, durations); taken as live collection and
    baseline, nothing in it is dirty. *)
Theorem demo_generate_is_regenerate_fixpoint (now : Z)
    (name who where_ what how image sid' image' : string) :
  let generated :=
    DemoService.generateScenario now name who where_ what how image in
  ids (ScenarioResult.scenes generated) = [1; 2; 3]
  ∧ ScenarioResult.scenes
      (Demo.regenerateScenario sid'
         (to_input <$> ScenarioResult.scenes generated) image')
    = ScenarioResult.scenes generated
  ∧ dirtyInfo (ScenarioResult.scenes generated)
      (ScenarioResult.scenes generated)
    = {| dirtyIds := []; dirtyCount := 0 |}.
Proof.
  cbv zeta. split; [reflexivity|]. split; [reflexivity|].
  rewrite dirtyInfo_eta.
  assert (Hz : dirtyCount
                 (dirtyInfo
                    (ScenarioResult.scenes
                       (DemoService.generateScenario now name who where_ what
                          how image))
                    (ScenarioResult.scenes
                       (DemoService.generateScenario now name who where_ what
                          how image))) = 0%nat).
  { apply dirtyInfo_self, NoDup_ids_same_description. compute_done. }
  rewrite dirtyCount_length in Hz. apply length_zero_iff_nil in Hz.
  by rewrite Hz.
Qed.

(** The demo regeneration reads only the pairs it is given: sent its own
    output again, under any token and image, it returns the same scenes; and
    the pairs of its output are the pairs it received. *)
Theorem demo_regenerate_idempotent (sid sid' image image' : string)
    (inputs : list SceneInput.t) :
  let result := Demo.regenerateScenario sid inputs image in
  to_input <$> ScenarioResult.scenes result = inputs
  ∧ Demo.regenerateScenario sid' (to_input <$> ScenarioResult.scenes result)
      image'
    = ScenarioResult.mk sid' (ScenarioResult.scenes result).
Proof.
  cbv zeta. simpl. split; [apply demo_regenerate_pairs|].
  unfold Demo.regenerateScenario. by rewrite demo_regenerate_pairs.
Qed.

Lemma generateSceneVideo_truthy sceneId description image scenarioId :
  truthy_string
    (DemoService.generateSceneVideo sceneId description image scenarioId)
  = true.
Proof. reflexivity. Qed.

(** [mergeVideos] never returns an empty URL: it returns the first URL when
    there is one and it is non-empty, and [/demo/videos/scene-1.mp4]
    otherwise; given the videos the demo generates for a list of scenes, it
    returns the first scene's video. *)
Theorem mergeVideos_first (videoUrls : list string) (sceneIds : list Z)
    (description image : string) (scenarioId : option string) :
  DemoService.mergeVideos videoUrls ≠ ""
  ∧ (∀ first rest, videoUrls = first :: rest → first ≠ "" →
       DemoService.mergeVideos videoUrls = first)
  ∧ (videoUrls = [] ∨ (∃ rest, videoUrls = "" :: rest) →
     DemoService.mergeVideos videoUrls = "/demo/videos/scene-1.mp4")
  ∧ (∀ sceneId rest, sceneIds = sceneId :: rest →
       DemoService.mergeVideos
         ((λ i, DemoService.generateSceneVideo i description image scenarioId)
          <$> sceneIds)
       = "/demo/videos/scene-" +:+ number_to_string sceneId +:+ ".mp4").
Proof.
  unfold DemoService.mergeVideos. split; [|split; [|split]].
  - destruct videoUrls as [|first rest]; simpl; [done|].
    unfold truthy_string. case_bool_decide; done.
  - intros first rest -> Hne. simpl. unfold truthy_string.
    by rewrite bool_decide_eq_true_2.
  - intros [-> | [rest ->]]; done.
  - intros sceneId rest ->. reflexivity.
Qed.
End DemoServiceFacts.

(** ** The base URL of the HTTP service *)

Section BaseUrl.
Implicit Types (s base host : string).

Lemma endsWith_app s suffix : Api.endsWith (s +:+ suffix) suffix = true.
Proof.
  induction s as [|c s IH]; simpl.
  - destruct suffix; simpl; [done|]. by rewrite Ascii.eqb_refl, String.eqb_refl.
  - rewrite IH. apply orb_true_r.
Qed.

Lemma string_app_assoc s t u : s +:+ (t +:+ u) = (s +:+ t) +:+ u.
Proof.
  induction s as [|c s IH]; [done|].
  change (String c (s +:+ (t +:+ u)) = String c ((s +:+ t) +:+ u)).
  by rewrite IH.
Qed.

(** Stripping after appending one character. *)
Lemma strip_snoc s t :
  String.length t = 1%nat →
  Api.strip_trailing_slash (s +:+ t)
  = if String.eqb t "/" then s else s +:+ t.
Proof.
  destruct t as [|c [|??]]; try done. intros _.
  induction s as [|d s IH].
  - simpl. by destruct (Ascii.eqb c _).
  - change (String d s +:+ String c "") with (String d (s +:+ String c "")).
    cbn [Api.strip_trailing_slash]. rewrite IH.
    destruct (s +:+ String c "") eqn:Happ.
    { by destruct s. }
    rewrite <- Happ. by destruct (String.eqb (String c "") "/").
Qed.

Lemma strip_without_slash s :
  Api.endsWith s "/" = false → Api.strip_trailing_slash s = s.
Proof.
  induction s as [|c s IH]; [done|].
  cbn [Api.endsWith Api.strip_trailing_slash].
  intros [Hc Hs]%orb_false_iff. destruct s as [|d s].
  - by rewrite Hc.
  - by rewrite IH.
Qed.

(** [API_V1_BASE_URL] always ends with [/api/v1] and is idempotent.  For a
    non-empty host that ends neither with a slash nor with [/api/v1], the
    four spellings of the variable (bare, with a trailing slash, with
    [/api/v1], with [/api/v1/]) all give [host/api/v1]; of two trailing
    slashes one is kept; and with both variables missing or empty the base is
    [http://localhost:8000/api/v1]. *)
Theorem API_V1_BASE_URL_spellings host (other : option string) :
  Api.endsWith host "/" = false →
  Api.endsWith host "/api/v1" = false →
  host ≠ "" →
  let v1 (configured : string) :=
    Api.API_V1_BASE_URL (Api.API_BASE_URL (Some configured) other) in
  (∀ base, Api.endsWith (Api.API_V1_BASE_URL base) "/api/v1" = true
           ∧ Api.API_V1_BASE_URL (Api.API_V1_BASE_URL base)
             = Api.API_V1_BASE_URL base)
  ∧ v1 host = host +:+ "/api/v1"
  ∧ v1 (host +:+ "/") = host +:+ "/api/v1"
  ∧ v1 (host +:+ "/api/v1") = host +:+ "/api/v1"
  ∧ v1 (host +:+ "/api/v1/") = host +:+ "/api/v1"
  ∧ Api.API_BASE_URL (Some (host +:+ "//")) other = host +:+ "/"
  ∧ Api.API_V1_BASE_URL (Api.API_BASE_URL None None)
    = "http://localhost:8000/api/v1"
  ∧ Api.API_V1_BASE_URL (Api.API_BASE_URL (Some "") (Some ""))
    = "http://localhost:8000/api/v1".
Proof.
  intros Hslash Hv1 Hne. cbv zeta.
  assert (Htruthy : ∀ t, truthy_string (host +:+ t) = true).
  { intros t. unfold truthy_string. apply bool_decide_eq_true_2.
    by destruct host. }
  assert (Hbase : ∀ t, Api.API_BASE_URL (Some (host +:+ t)) other
                       = Api.strip_trailing_slash (host +:+ t)).
  { intros t. unfold Api.API_BASE_URL, Api.env_or. by rewrite Htruthy. }
  assert (Hbare : Api.API_BASE_URL (Some host) other = host).
  { unfold Api.API_BASE_URL, Api.env_or, truthy_string.
    rewrite bool_decide_eq_true_2 by done. by apply strip_without_slash. }
  assert (Hhost : Api.API_V1_BASE_URL host = host +:+ "/api/v1").
  { unfold Api.API_V1_BASE_URL. by rewrite Hv1. }
  assert (Hfull : Api.API_V1_BASE_URL (host +:+ "/api/v1") = host +:+ "/api/v1").
  { unfold Api.API_V1_BASE_URL. by rewrite endsWith_app. }
  split; [|split; [|split; [|split; [|split; [|split; [|split]]]]]].
  - intros base. unfold Api.API_V1_BASE_URL.
    destruct (Api.endsWith base "/api/v1") eqn:He.
    + by rewrite He.
    + by rewrite endsWith_app.
  - by rewrite Hbare.
  - by rewrite Hbase, (strip_snoc host "/").
  - rewrite Hbase.
    replace (host +:+ "/api/v1") with ((host +:+ "/api/v") +:+ "1") at 1
      by (by rewrite <- string_app_assoc).
    rewrite (strip_snoc _ "1") by done. cbn [String.eqb Ascii.eqb Bool.eqb].
    rewrite <- string_app_assoc. exact Hfull.
  - rewrite Hbase.
    replace (host +:+ "/api/v1/") with ((host +:+ "/api/v1") +:+ "/")
      by (by rewrite <- string_app_assoc).
    rewrite (strip_snoc _ "/") by done. exact Hfull.
  - rewrite Hbase.
    replace (host +:+ "//") with ((host +:+ "/") +:+ "/")
      by (by rewrite <- string_app_assoc).
    by rewrite (strip_snoc _ "/").
  - reflexivity.
  - reflexivity.
Qed.

(** Witness: a production endpoint. *)
Lemma API_V1_BASE_URL_spellings_witness :
  Api.endsWith "https://api.example.com" "/" = false
  ∧ Api.endsWith "https://api.example.com" "/api/v1" = false
  ∧ Api.API_V1_BASE_URL
      (Api.API_BASE_URL (Some "https://api.example.com/api/v1/") None)
    = "https://api.example.com/api/v1".
Proof.
  split; [reflexivity|]. split; [reflexivity|].
  destruct (API_V1_BASE_URL_spellings "https://api.example.com" None
              eq_refl eq_refl ltac:(done)) as (_ & _ & _ & _ & H & _).
  exact H.
Defined.
End BaseUrl.

(** ** The response mapping of the HTTP service *)

(** Mapping the response keeps the token, the number and the order of the
    scenes, and each scene's id, description, duration and image; no mapped
    scene has a video; every mapped scene has a title, the API's own when it
    sent one (an empty title is kept) and otherwise [Scene <id>], the title
    the demo service gives a scene of that id. *)
Theorem scenario_result_keeps_scenes (result : Api.ApiScenarioResponse) :
  let mapped := Api.scenario_result result in
  mapped.1 = Api.scenario_id result
  ∧ length mapped.2 = length (Api.scenes result)
  ∧ Api.out_id <$> mapped.2 = Api.id <$> Api.scenes result
  ∧ Api.out_description <$> mapped.2 = Api.description <$> Api.scenes result
  ∧ Api.out_duration <$> mapped.2 = Api.duration <$> Api.scenes result
  ∧ Api.out_imageUrl <$> mapped.2 = Api.image_url <$> Api.scenes result
  ∧ (∀ out, out ∈ mapped.2 →
       Api.out_videoUrl out = None ∧ is_Some (Api.out_title out))
  ∧ (∀ i scene, Api.scenes result !! i = Some scene →
       ∃ out, mapped.2 !! i = Some out
         ∧ (∀ t, Api.title scene = Some t → Api.out_title out = Some t)
         ∧ (Api.title scene = None →
            Api.out_title out
            = SceneOutput.title
                (Demo.regenerate_scene
                   (SceneInput.mk (Api.id scene) (Api.description scene))))).
Proof.
  cbv zeta. unfold Api.scenario_result. cbn [fst snd].
  split; [done|]. split; [by rewrite length_fmap|].
  repeat (split; [by rewrite <- list_fmap_compose|]).
  split.
  - intros out (scene & -> & _)%list_elem_of_fmap. split; [done|]. by eexists.
  - intros i scene Hi. eexists. rewrite list_lookup_fmap, Hi.
    split; [reflexivity|]. unfold Api.mapApiScene. simpl.
    split; [by intros t ->|]. by intros ->.
Qed.

(** ** Witnesses of the further properties *)

(** The sample collections and what the demo service returns for them have
    the same pairs, hence the same dirty information. *)
Lemma dirtyInfo_reads_pairs_only_witness :
  let live' := Demo.regenerate_scene <$> (to_input <$> sample_live) in
  let base' := Demo.regenerate_scene <$> (to_input <$> sample_baseline) in
  to_input <$> sample_live = to_input <$> live'
  ∧ to_input <$> sample_baseline = to_input <$> base'
  ∧ dirtyInfo sample_live sample_baseline = dirtyInfo live' base'.
Proof.
  intros live' base'.
  assert (Hl : to_input <$> sample_live = to_input <$> live') by reflexivity.
  assert (Hb : to_input <$> sample_baseline = to_input <$> base')
    by reflexivity.
  split; [exact Hl|]. split; [exact Hb|].
  exact (dirtyInfo_reads_pairs_only sample_live live' sample_baseline base'
           Hl Hb).
Defined.

(** Saving scene 1 of the sample with a new text keeps the ids. *)
Lemma local_edit_frame_witness :
  let c := idle (set_editedDescription "A3"
                   (set_editingSceneId (Some 1) sample_state)) in
  local_edit ClickSave
  ∧ ids (scenes (state (dispatch ClickSave c).1)) = ids (scenes (state c))
  ∧ scenes (state (dispatch ClickSave c).1) = [scene 1 "A3"; scene 2 "B"].
Proof.
  intros c. split; [exact I|].
  destruct (local_edit_frame ClickSave c I) as (_ & _ & _ & _ & _ & Hids & _).
  split; [exact Hids | reflexivity].
Defined.

(** Opening scene 2 of the sample and saving at once changes nothing. *)
Lemma open_and_save_is_identity_witness :
  editingSceneId (state (idle sample_state)) = None
  ∧ same_id_same_description (scenes (state (idle sample_state)))
  ∧ scenes (state (exec [ClickEdit 1; ClickSave] (idle sample_state)).1)
    = sample_live.
Proof.
  assert (Hsame : same_id_same_description (scenes (state (idle sample_state)))).
  { apply NoDup_ids_same_description. compute_done. }
  split; [reflexivity|]. split; [exact Hsame|].
  exact (proj1 (open_and_save_is_identity (idle sample_state) 1 eq_refl Hsame)).
Defined.
